(** * CareerCoach guardrails: the policy checker and its two endpoints

    A shallow embedding of [guardrails/app/policy.py] and of the two
    validation routes of [guardrails/app/app.py], with the properties of
    the checker stated and proved over it.

    Python values are modelled as follows.
    - A [str] is the list of its Unicode code points ([pystr]).
    - The Unicode character database consulted by [str.lower] and by the
      [re] module is not part of the repository: its non-ASCII part is a
      record of functions ([ucd]) that every definition takes as a section
      variable; the ASCII part is written out.
    - [re.search] goes through the pattern cache of the [re] module, the
      only mutable state the checker touches, and compiling a pattern may
      raise [re.error]: code that calls it lives in a state-and-exception
      monad [M]. *)

From Stdlib Require Import ZArith NArith Ascii String List Lia Bool.
From Stdlib Require Import Floats.SpecFloat DecimalString.
From stdpp Require Import base option list gmap.

Local Open Scope N_scope.

(** ** Python strings *)

Definition codepoint := N.
Definition pystr := list codepoint.

(** The code points of a source literal (all literals of the two modules
    are ASCII). *)
Definition py (s : string) : pystr :=
  List.map N_of_ascii (list_ascii_of_string s).

(** [ord] of an ASCII character. *)
Definition ord (a : ascii) : codepoint := N_of_ascii a.

(** [s.startswith(p)]. *)
Fixpoint startswith (s p : pystr) {struct p} : bool :=
  match p, s with
  | [], _ => true
  | _ :: _, [] => false
  | a :: p', b :: s' => (a =? b) && startswith s' p'
  end.

(** [p in s]: [p] occurs in [s] as a contiguous substring. *)
Fixpoint contains (s p : pystr) : bool :=
  startswith s p ||
  match s with
  | [] => false
  | _ :: s' => contains s' p
  end.

(** [sep.join(parts)]. *)
Fixpoint join (sep : pystr) (parts : list pystr) : pystr :=
  match parts with
  | [] => []
  | [x] => x
  | x :: rest => x ++ sep ++ join sep rest
  end.

(** ** The Unicode character database

    The fields give the answers of CPython's [unicodectype] for code points
    from 128 on; for ASCII the functions below answer themselves. *)

Record ucd := {
  ucd_isalpha : codepoint -> bool;
  ucd_isdecimal : codepoint -> bool;
  ucd_isdigit : codepoint -> bool;
  ucd_isnumeric : codepoint -> bool;
  ucd_isspace : codepoint -> bool;
  (** lower-casing of one code point in its context (the text before and
      after it, which the rule for a capital sigma reads); the result may
      be several code points long *)
  ucd_lower : pystr -> codepoint -> pystr -> pystr;
}.

Definition between (lo hi c : codepoint) : bool := (lo <=? c) && (c <=? hi).

Definition is_ascii (c : codepoint) : bool := c <? 128.

Section Unicode.

Variable db : ucd.

Definition Py_UNICODE_ISDECIMAL (c : codepoint) : bool :=
  if is_ascii c then between (ord "0") (ord "9") c else ucd_isdecimal db c.

Definition Py_UNICODE_ISDIGIT (c : codepoint) : bool :=
  if is_ascii c then between (ord "0") (ord "9") c else ucd_isdigit db c.

Definition Py_UNICODE_ISNUMERIC (c : codepoint) : bool :=
  if is_ascii c then between (ord "0") (ord "9") c else ucd_isnumeric db c.

Definition Py_UNICODE_ISALPHA (c : codepoint) : bool :=
  if is_ascii c
  then between (ord "A") (ord "Z") c || between (ord "a") (ord "z") c
  else ucd_isalpha db c.

(** ASCII white space: tab to carriage return, the four separators
    0x1C to 0x1F, and the space. *)
Definition Py_UNICODE_ISSPACE (c : codepoint) : bool :=
  if is_ascii c
  then between 9 13 c || between 28 31 c || (c =? 32)
  else ucd_isspace db c.

Definition Py_UNICODE_ISALNUM (c : codepoint) : bool :=
  Py_UNICODE_ISALPHA c || Py_UNICODE_ISDECIMAL c ||
  Py_UNICODE_ISDIGIT c || Py_UNICODE_ISNUMERIC c.

(** A word character of [re]: alphanumeric or the underscore. *)
Definition SRE_UNI_IS_WORD (c : codepoint) : bool :=
  Py_UNICODE_ISALNUM c || (c =? ord "_").

(** Lower-casing of the code point [c] found between [before] and
    [after]. *)
Definition lower_ucs4 (before : pystr) (c : codepoint) (after : pystr)
  : pystr :=
  if is_ascii c
  then [if between (ord "A") (ord "Z") c then c + 32 else c]
  else ucd_lower db before c after.

Fixpoint do_lower (before s : pystr) : pystr :=
  match s with
  | [] => []
  | c :: after =>
      lower_ucs4 before c after ++ do_lower (before ++ [c]) after
  end.

(** [s.lower()]. *)
Definition str_lower (s : pystr) : pystr := do_lower [] s.

End Unicode.

(** ** JSON values, exceptions and results *)

(** What a decoded JSON body holds: [None], [bool], [int], [float], [str],
    [list], [dict]. *)
#[warnings="-register-all"]
Inductive json :=
  | JNone
  | JBool (b : bool)
  | JInt (z : Z)
  | JFloat (f : spec_float)
  | JStr (s : pystr)
  | JList (l : list json)
  | JDict (d : gmap pystr json).

Inductive exn :=
  (** [re.error], raised when a pattern does not compile *)
  | re_error (msg : string)
  (** a construct of the pattern language that this development does not
      cover; no pattern of the repository reaches it *)
  | unsupported (what : string)
  (** [fastapi.HTTPException(status_code, detail)] *)
  | HTTPException (status_code : Z) (detail : json).

Inductive result (A : Type) :=
  | Ok (a : A)
  | Raise (e : exn).
Arguments Ok {A} a.
Arguments Raise {A} e.

(** ** Regular expressions: the parsed form *)

Inductive category := CATEGORY_DIGIT | CATEGORY_SPACE | CATEGORY_WORD.

(** One member of a bracketed set. *)
Inductive set_item :=
  | SLiteral (c : codepoint)
  | SRange (lo hi : codepoint)
  | SCategory (negated : bool) (k : category).

Inductive regex :=
  | Empty
  | Literal (c : codepoint)
  | In_ (negate : bool) (items : list set_item)
  | At_boundary
  | At_non_boundary
  | Seq (r1 r2 : regex)
  | Branch (r1 r2 : regex)
  (** greedy repetition, [max = None] for no upper bound *)
  | Max_repeat (min : nat) (max : option nat) (r : regex).

Definition seq_of (items : list regex) : regex := fold_right Seq Empty items.

(** ** Parsing a pattern (after [sre_parse])

    Covered: literals, [\b] [\B], the categories [\d \D \s \S \w \W],
    escaped punctuation, bracketed sets with ranges, groups (capturing or
    [(?:...)], which [search] does not tell apart), [|], and the greedy
    quantifiers [? * + {m} {m,} {m,n}]. *)

Definition sourcematch (a : ascii) (s : pystr) : option pystr :=
  match s with
  | c :: s' => if c =? ord a then Some s' else None
  | [] => None
  end.

Definition is_ascii_digit (c : codepoint) : bool :=
  between (ord "0") (ord "9") c.

Definition is_ascii_letter (c : codepoint) : bool :=
  between (ord "A") (ord "Z") c || between (ord "a") (ord "z") c.

Fixpoint take_digits (s : pystr) : pystr * pystr :=
  match s with
  | c :: s' =>
      if is_ascii_digit c
      then let (ds, rest) := take_digits s' in (c :: ds, rest)
      else ([], s)
  | [] => ([], [])
  end.

(** [int(ds)] for a string of ASCII digits. *)
Definition int_of_digits (ds : pystr) : nat :=
  fold_left (fun n c => (10 * n + N.to_nat (c - ord "0"))%nat) ds 0%nat.

(** The escape [\c] outside a set. *)
Definition escape (c : codepoint) : result regex :=
  if c =? ord "b" then Ok At_boundary
  else if c =? ord "B" then Ok At_non_boundary
  else if c =? ord "d" then Ok (In_ false [SCategory false CATEGORY_DIGIT])
  else if c =? ord "D" then Ok (In_ false [SCategory true CATEGORY_DIGIT])
  else if c =? ord "s" then Ok (In_ false [SCategory false CATEGORY_SPACE])
  else if c =? ord "S" then Ok (In_ false [SCategory true CATEGORY_SPACE])
  else if c =? ord "w" then Ok (In_ false [SCategory false CATEGORY_WORD])
  else if c =? ord "W" then Ok (In_ false [SCategory true CATEGORY_WORD])
  else if is_ascii_letter c || is_ascii_digit c
  then Raise (unsupported "escape")
  else Ok (Literal c).

(** The escape [\c] inside a set. *)
Definition class_escape (c : codepoint) : result set_item :=
  if c =? ord "d" then Ok (SCategory false CATEGORY_DIGIT)
  else if c =? ord "D" then Ok (SCategory true CATEGORY_DIGIT)
  else if c =? ord "s" then Ok (SCategory false CATEGORY_SPACE)
  else if c =? ord "S" then Ok (SCategory true CATEGORY_SPACE)
  else if c =? ord "w" then Ok (SCategory false CATEGORY_WORD)
  else if c =? ord "W" then Ok (SCategory true CATEGORY_WORD)
  else if is_ascii_letter c || is_ascii_digit c
  then Raise (unsupported "escape in a set")
  else Ok (SLiteral c).

(** One member of a set, escaped or not; [s] starts at the member. *)
Definition set_member (s : pystr) : result (set_item * pystr) :=
  match s with
  | [] => Raise (re_error "unterminated character set")
  | c :: s' =>
      if c =? ord "\" then
        match s' with
        | [] => Raise (re_error "bad escape (end of pattern)")
        | e :: s'' =>
            match class_escape e with
            | Ok it => Ok (it, s'')
            | Raise x => Raise x
            end
        end
      else Ok (SLiteral c, s')
  end.

(** The members of a set up to the closing bracket; [acc] holds the
    members read so far, last first. *)
Fixpoint parse_set (fuel : nat) (s : pystr) (acc : list set_item)
  : result (list set_item * pystr) :=
  match fuel with
  | O => Raise (unsupported "pattern too long")
  | S fuel =>
      match s, acc with
      | [], _ => Raise (re_error "unterminated character set")
      | c :: s', _ :: _ =>
          if c =? ord "]" then Ok (rev acc, s') else parse_set_member fuel s acc
      | _, _ => parse_set_member fuel s acc
      end
  end
with parse_set_member (fuel : nat) (s : pystr) (acc : list set_item)
  : result (list set_item * pystr) :=
  match fuel with
  | O => Raise (unsupported "pattern too long")
  | S fuel =>
      match set_member s with
      | Raise x => Raise x
      | Ok (code1, s1) =>
          match sourcematch "-" s1 with
          | None => parse_set fuel s1 (code1 :: acc)
          | Some s2 =>
              match s2 with
              | [] => Raise (re_error "unterminated character set")
              | that :: s3 =>
                  if that =? ord "]"
                  then Ok (rev (SLiteral (ord "-") :: code1 :: acc), s3)
                  else
                    match set_member s2 with
                    | Raise x => Raise x
                    | Ok (code2, s4) =>
                        match code1, code2 with
                        | SLiteral lo, SLiteral hi =>
                            if hi <? lo
                            then Raise (re_error "bad character range")
                            else parse_set fuel s4 (SRange lo hi :: acc)
                        | _, _ => Raise (re_error "bad character range")
                        end
                    end
              end
          end
      end
  end.

(** What follows an opening brace: [None] when the brace is a literal,
    else the bounds and the source after the closing brace. *)
Definition parse_braces (s : pystr)
  : result (option (nat * option nat * pystr)) :=
  match sourcematch "}" s with
  | Some _ => Ok None
  | None =>
      let (lo, s1) := take_digits s in
      let (hi, s2) :=
        match sourcematch "," s1 with
        | Some s1' => take_digits s1'
        | None => (lo, s1)
        end in
      match sourcematch "}" s2 with
      | None => Ok None
      | Some s3 =>
          let min := match lo with [] => 0%nat | _ => int_of_digits lo end in
          match hi with
          | [] => Ok (Some (min, None, s3))
          | _ =>
              let max := int_of_digits hi in
              if (max <? min)%nat
              then Raise (re_error "min repeat greater than max repeat")
              else Ok (Some (min, Some max, s3))
          end
      end
  end.

(** Apply a quantifier to the item read last. *)
Definition repeat_last (min : nat) (max : option nat) (acc : list regex)
  : result (list regex) :=
  match acc with
  | [] => Raise (re_error "nothing to repeat")
  | At_boundary :: _ | At_non_boundary :: _ =>
      Raise (re_error "nothing to repeat")
  | Max_repeat _ _ _ :: _ => Raise (re_error "multiple repeat")
  | item :: acc' => Ok (Max_repeat min max item :: acc')
  end.

(** A quantifier followed by [?] or [+] is lazy or possessive. *)
Definition no_suffix (s : pystr) : bool :=
  match s with
  | c :: _ => negb ((c =? ord "?") || (c =? ord "+"))
  | [] => true
  end.

Fixpoint parse_sub (fuel : nat) (s : pystr) : result (regex * pystr) :=
  match fuel with
  | O => Raise (unsupported "pattern too long")
  | S fuel =>
      match parse_items fuel s [] with
      | Raise x => Raise x
      | Ok (items, s1) =>
          match sourcematch "|" s1 with
          | None => Ok (seq_of items, s1)
          | Some s2 =>
              match parse_sub fuel s2 with
              | Raise x => Raise x
              | Ok (r, s3) => Ok (Branch (seq_of items) r, s3)
              end
          end
      end
  end
with parse_items (fuel : nat) (s : pystr) (acc : list regex)
  : result (list regex * pystr) :=
  match fuel with
  | O => Raise (unsupported "pattern too long")
  | S fuel =>
      match s with
      | [] => Ok (rev acc, s)
      | this :: s' =>
          let quantify min max rest :=
            if no_suffix rest then
              match repeat_last min max acc with
              | Raise x => Raise x
              | Ok acc' => parse_items fuel rest acc'
              end
            else Raise (unsupported "lazy or possessive quantifier") in
          if (this =? ord "|") || (this =? ord ")") then Ok (rev acc, s)
          else if this =? ord "\" then
            match s' with
            | [] => Raise (re_error "bad escape (end of pattern)")
            | e :: s'' =>
                match escape e with
                | Raise x => Raise x
                | Ok r => parse_items fuel s'' (r :: acc)
                end
            end
          else if this =? ord "[" then
            let (negate, s1) :=
              match sourcematch "^" s' with
              | Some s1 => (true, s1)
              | None => (false, s')
              end in
            match parse_set fuel s1 [] with
            | Raise x => Raise x
            | Ok (items, s2) => parse_items fuel s2 (In_ negate items :: acc)
            end
          else if this =? ord "?" then quantify 0%nat (Some 1%nat) s'
          else if this =? ord "*" then quantify 0%nat None s'
          else if this =? ord "+" then quantify 1%nat None s'
          else if this =? ord "{" then
            match parse_braces s' with
            | Raise x => Raise x
            | Ok None => parse_items fuel s' (Literal this :: acc)
            | Ok (Some (min, max, rest)) => quantify min max rest
            end
          else if this =? ord "(" then
            let body :=
              match sourcematch "?" s' with
              | None => Ok s'
              | Some s1 =>
                  match sourcematch ":" s1 with
                  | Some s2 => Ok s2
                  | None => Raise (unsupported "group extension")
                  end
              end in
            match body with
            | Raise x => Raise x
            | Ok s1 =>
                match parse_sub fuel s1 with
                | Raise x => Raise x
                | Ok (r, s2) =>
                    match sourcematch ")" s2 with
                    | None =>
                        Raise (re_error "missing ), unterminated subpattern")
                    | Some s3 => parse_items fuel s3 (r :: acc)
                    end
                end
            end
          else if (this =? ord ".") || (this =? ord "^") || (this =? ord "$")
          then Raise (unsupported "any or anchor")
          else parse_items fuel s' (Literal this :: acc)
      end
  end.

(** [sre_compile.compile(pattern)] for a [str] pattern and no flags. *)
Definition sre_compile (pattern : pystr) : result regex :=
  match parse_sub (2 * length pattern + 2) pattern with
  | Raise x => Raise x
  | Ok (r, []) => Ok r
  | Ok (_, _ :: _) => Raise (re_error "unbalanced parenthesis")
  end.

(** ** Matching (after [_sre])

    A position in the subject is the code point before it, if any, and the
    text from it on. [run r p] lists the positions where a match of [r]
    that starts at [p] can end, in the order in which the backtracking
    matcher tries them (more repetitions first, left branch first). Of a
    repetition it gives the regular-language reading: its body repeated
    [k] times for every [k] within the bounds. *)

Definition pos : Type := option codepoint * pystr.

Definition next (p : pos) : option codepoint := head (snd p).

Fixpoint times (f : pos -> list pos) (n : nat) (p : pos) : list pos :=
  match n with
  | O => [p]
  | S n' => flat_map (times f n') (f p)
  end.

Fixpoint upto (f : pos -> list pos) (n : nat) (p : pos) : list pos :=
  match n with
  | O => [p]
  | S n' => flat_map (upto f n') (f p) ++ [p]
  end.

(** A match object: the span of the match. *)
Record Match := { m_start : nat; m_end : nat }.

Section Matching.

Variable db : ucd.

Definition in_category (k : category) (c : codepoint) : bool :=
  match k with
  | CATEGORY_DIGIT => Py_UNICODE_ISDECIMAL db c
  | CATEGORY_SPACE => Py_UNICODE_ISSPACE db c
  | CATEGORY_WORD => SRE_UNI_IS_WORD db c
  end.

Definition in_item (c : codepoint) (it : set_item) : bool :=
  match it with
  | SLiteral x => c =? x
  | SRange lo hi => between lo hi c
  | SCategory negated k => xorb negated (in_category k c)
  end.

Definition charset (negate : bool) (items : list set_item) (c : codepoint)
  : bool :=
  xorb negate (existsb (in_item c) items).

(** Consume one code point that satisfies [ok]. *)
Definition one (ok : codepoint -> bool) (p : pos) : list pos :=
  match snd p with
  | c :: after => if ok c then [(Some c, after)] else []
  | [] => []
  end.

Definition is_word (c : option codepoint) : bool :=
  match c with
  | Some c => SRE_UNI_IS_WORD db c
  | None => false
  end.

(** [\b]: exactly one of the two neighbours is a word character (the
    ends of the subject count as non-word). *)
Definition at_boundary (p : pos) : bool :=
  xorb (is_word (fst p)) (is_word (next p)).

Fixpoint run (r : regex) (p : pos) : list pos :=
  match r with
  | Empty => [p]
  | Literal c => one (N.eqb c) p
  | In_ negate items => one (charset negate items) p
  | At_boundary => if at_boundary p then [p] else []
  | At_non_boundary => if at_boundary p then [] else [p]
  | Seq r1 r2 => flat_map (run r2) (run r1 p)
  | Branch r1 r2 => run r1 p ++ run r2 p
  | Max_repeat min max r =>
      flat_map
        (fun q =>
           upto (run r)
             (match max with
              | Some m => m - min
              | None => length (snd q)
              end)%nat q)
        (times (run r) min p)
  end.

(** Try the start positions from left to right; [i] is the offset of
    [s] in the subject of length [n]. *)
Fixpoint search_from (r : regex) (n i : nat) (before : option codepoint)
  (s : pystr) : option Match :=
  match run r (before, s) with
  | (_, after) :: _ =>
      Some {| m_start := i; m_end := (n - length after)%nat |}
  | [] =>
      match s with
      | [] => None
      | c :: s' => search_from r n (S i) (Some c) s'
      end
  end.

(** [pattern.search(text)] for a compiled pattern. *)
Definition search (r : regex) (text : pystr) : option Match :=
  search_from r (length text) 0%nat None text.

End Matching.

(** ** The monad of state and exceptions

    The state is the pattern cache of the [re] module: the compiled
    patterns by their source, oldest first. An exception leaves the state
    as it was when it was raised. *)

Definition re_cache := list (pystr * regex).

Definition M (A : Type) : Type := re_cache -> result A * re_cache.

Definition ret {A} (a : A) : M A := fun cache => (Ok a, cache).

Definition raise {A} (e : exn) : M A := fun cache => (Raise e, cache).

Definition bind {A B} (m : M A) (k : A -> M B) : M B :=
  fun cache =>
    match m cache with
    | (Ok a, cache') => k a cache'
    | (Raise e, cache') => (Raise e, cache')
    end.

Notation "x <- m ;; k" := (bind m (fun x => k))
  (at level 100, m at next level, right associativity).

(** [for x in xs: acc = body(acc, x)]. *)
Fixpoint for_in {A B} (xs : list A) (body : B -> A -> M B) (acc : B) : M B :=
  match xs with
  | [] => ret acc
  | x :: xs' => acc' <- body acc x ;; for_in xs' body acc'
  end.

(** The truth value of a list and of an optional object. *)
Definition nonempty {A} (l : list A) : bool :=
  match l with [] => false | _ :: _ => true end.

Definition is_some {A} (o : option A) : bool :=
  match o with Some _ => true | None => false end.

(** ** [re.search] and the pattern cache *)

Fixpoint cache_get (pattern : pystr) (cache : re_cache) : option regex :=
  match cache with
  | [] => None
  | (k, p) :: cache' =>
      if decide (k = pattern) then Some p else cache_get pattern cache'
  end.

Definition MAXCACHE : nat := 512.

(** [re._compile(pattern, 0)]: the cached pattern if there is one; else
    the pattern is compiled and stored, after the oldest entry is dropped
    from a full cache. *)
Definition re_compile (pattern : pystr) : M regex :=
  fun cache =>
    match cache_get pattern cache with
    | Some p => (Ok p, cache)
    | None =>
        match sre_compile pattern with
        | Raise e => (Raise e, cache)
        | Ok p =>
            let cache := if (MAXCACHE <=? length cache)%nat
                         then tail cache else cache in
            (Ok p, cache ++ [(pattern, p)])
        end
    end.

(** Every cached pattern is what compiling its source gives. *)
Definition cache_ok (cache : re_cache) : Prop :=
  Forall (fun e => sre_compile (fst e) = Ok (snd e)) cache.

(** ** [guardrails/app/policy.py] *)

Definition BANNED_PATTERNS : list pystr := [
  py "because you are a woman";
  py "because you are a man";
  py "because you are muslim";
  py "because you are christian";
  py "because of your ethnicity";
  py "because of your race";
  py "because of your gender";
  py "because of your age";
  py "because of your disability";
  py "due to your religion"
].

(** The dictionary [PII_PATTERNS], as its items in insertion order (the
    order in which [.items()] yields them). *)
Definition PII_PATTERNS : list (pystr * pystr) := [
  (py "email", py "\b[A-Za-z0-9._%+-]+@[A-Za-z0-9.-]+\.[A-Z|a-z]{2,}\b");
  (py "phone",
   py "\b(?:\+?\d{1,3}[-.\s]?)?\(?\d{3}\)?[-.\s]?\d{3}[-.\s]?\d{4}\b");
  (py "ssn", py "\b\d{3}-\d{2}-\d{4}\b")
].

Definition unprofessional_words : list pystr :=
  [py "stupid"; py "dumb"; py "idiot"; py "useless"].

Section Policy.

Variable db : ucd.

(** [re.search(pattern, text)]. *)
Definition re_search (pattern text : pystr) : M (option Match) :=
  p <- re_compile pattern ;;
  ret (search db p text).

Definition policy_check (text : pystr) : M (list pystr) :=
  let lower := str_lower db text in
  let violations := [] in
  (* 1. discriminatory patterns *)
  let violations :=
    fold_left
      (fun violations pattern =>
         if contains lower pattern
         then violations ++
              [py "Discriminatory reasoning detected: '" ++ pattern ++ py "'"]
         else violations)
      BANNED_PATTERNS violations in
  (* 2. PII *)
  violations <-
    for_in PII_PATTERNS
      (fun violations '(pii_type, regex) =>
         m <- re_search regex text ;;
         ret (if is_some m
              then violations ++ [py "PII detected: " ++ pii_type]
              else violations))
      violations ;;
  (* 3. unprofessional language *)
  let found_unprofessional :=
    List.filter (fun word => contains lower word) unprofessional_words in
  let violations :=
    if nonempty found_unprofessional
    then violations ++
         [py "Unprofessional language: " ++
          join (py ", ") found_unprofessional]
    else violations in
  ret violations.

End Policy.

(** ** [guardrails/app/app.py]

    The two routes, without their log lines (which format the length of the
    text and the list of violations, and cannot fail). *)

Record TextValidationRequest := { text : pystr }.

Record ValidationResponse := {
  status : pystr;
  is_valid : bool;
  validated_text : option pystr;
  violations : option (list pystr);
}.

Section App.

Variable db : ucd.

Definition validate_text (payload : TextValidationRequest)
  : M ValidationResponse :=
  let text := text payload in
  violations <- policy_check db text ;;
  if nonempty violations then
    ret {| status := py "VIOLATION";
           is_valid := false;
           validated_text := None;
           violations := Some violations |}
  else
    ret {| status := py "OK";
           is_valid := true;
           validated_text := Some text;
           violations := None |}.

(** [payload.get(key)]: [None] for a missing key. *)
Definition dict_get (payload : gmap pystr json) (key : pystr) : json :=
  default JNone (payload !! key).

Definition validate_text_strict (payload : gmap pystr json)
  : M (gmap pystr json) :=
  match dict_get payload (py "text") with
  | JStr text =>
      violations <- policy_check db text ;;
      if nonempty violations then
        raise (HTTPException 400
                 (JDict {[ py "error" := JStr (py "POLICY_VIOLATION");
                           py "violations" := JList (JStr <$> violations) ]}))
      else
        ret {[ py "status" := JStr (py "OK");
               py "validated_text" := JStr text ]}
  | _ =>
      raise (HTTPException 400 (JStr (py "Field 'text' must be a string.")))
  end.

End App.

(** ** The checker as the specification words it

    Three passes over the same text, each a list of messages, and their
    concatenation. The patterns of the PII pass are the parsed forms of the
    three entries of [PII_PATTERNS]. *)

Definition digit : regex := In_ false [SCategory false CATEGORY_DIGIT].

Definition opt (r : regex) : regex := Max_repeat 0 (Some 1%nat) r.

Definition exactly (n : nat) (r : regex) : regex := Max_repeat n (Some n) r.

(** [[-.\s]?] *)
Definition separator : regex :=
  opt (In_ false [SLiteral (ord "-"); SLiteral (ord ".");
                  SCategory false CATEGORY_SPACE]).

Definition email_re : regex :=
  seq_of [
    At_boundary;
    Max_repeat 1 None
      (In_ false [SRange (ord "A") (ord "Z"); SRange (ord "a") (ord "z");
                  SRange (ord "0") (ord "9"); SLiteral (ord ".");
                  SLiteral (ord "_"); SLiteral (ord "%"); SLiteral (ord "+");
                  SLiteral (ord "-")]);
    Literal (ord "@");
    Max_repeat 1 None
      (In_ false [SRange (ord "A") (ord "Z"); SRange (ord "a") (ord "z");
                  SRange (ord "0") (ord "9"); SLiteral (ord ".");
                  SLiteral (ord "-")]);
    Literal (ord ".");
    Max_repeat 2 None
      (In_ false [SRange (ord "A") (ord "Z"); SLiteral (ord "|");
                  SRange (ord "a") (ord "z")]);
    At_boundary
  ].

Definition phone_re : regex :=
  seq_of [
    At_boundary;
    opt (seq_of [opt (Literal (ord "+"));
                 Max_repeat 1 (Some 3%nat) digit;
                 separator]);
    opt (Literal (ord "("));
    exactly 3 digit;
    opt (Literal (ord ")"));
    separator;
    exactly 3 digit;
    separator;
    exactly 4 digit;
    At_boundary
  ].

Definition ssn_re : regex :=
  seq_of [
    At_boundary;
    exactly 3 digit;
    Literal (ord "-");
    exactly 2 digit;
    Literal (ord "-");
    exactly 4 digit;
    At_boundary
  ].

Definition discriminatory_message (phrase : pystr) : pystr :=
  py "Discriminatory reasoning detected: '" ++ phrase ++ py "'".

Definition pii_message (kind : pystr) : pystr := py "PII detected: " ++ kind.

Definition unprofessional_message (words : list pystr) : pystr :=
  py "Unprofessional language: " ++ join (py ", ") words.

Section Passes.

Variable db : ucd.

(** The banned phrases that occur in the lower-cased text. *)
Definition matched_phrases (text : pystr) : list pystr :=
  List.filter (contains (str_lower db text)) BANNED_PATTERNS.

(** The unprofessional words that occur in the lower-cased text. *)
Definition matched_words (text : pystr) : list pystr :=
  List.filter (contains (str_lower db text)) unprofessional_words.

(** Does the detector [r] match somewhere in the text as given? *)
Definition detects (r : regex) (text : pystr) : bool :=
  is_some (search db r text).

Definition discriminatory_pass (text : pystr) : list pystr :=
  List.map discriminatory_message (matched_phrases text).

Definition pii_pass (text : pystr) : list pystr :=
  (if detects email_re text then [pii_message (py "email")] else []) ++
  (if detects phone_re text then [pii_message (py "phone")] else []) ++
  (if detects ssn_re text then [pii_message (py "ssn")] else []).

Definition unprofessional_pass (text : pystr) : list pystr :=
  match matched_words text with
  | [] => []
  | words => [unprofessional_message words]
  end.

Definition three_passes (text : pystr) : list pystr :=
  discriminatory_pass text ++ pii_pass text ++ unprofessional_pass text.

End Passes.

(** ** Auxiliary notions of the statements *)

(** ASCII code points other than the capital letters. *)
Definition ascii_uncapital (c : codepoint) : bool :=
  is_ascii c && negb (between (ord "A") (ord "Z") c).

(** The code point before the position reached by reading [x] from a
    position that has [before] before it. *)
Fixpoint last_of (before : option codepoint) (x : pystr) : option codepoint :=
  match x with
  | [] => before
  | c :: x' => last_of (Some c) x'
  end.

(** What a match is, apart from how the matcher finds it: [matches r p q]
    when [r] matches the text between the positions [p] and [q]. *)

Fixpoint power (R : pos -> pos -> Prop) (k : nat) (p q : pos) : Prop :=
  match k with
  | O => q = p
  | S k' => exists m, R p m /\ power R k' m q
  end.

(** A relation whose steps stay in place or move on in the text. *)
Definition advances (R : pos -> pos -> Prop) : Prop :=
  forall p q, R p q -> q = p \/ (length (snd q) < length (snd p))%nat.

Section Semantics.

Variable db : ucd.

Fixpoint matches (r : regex) (p q : pos) : Prop :=
  match r with
  | Empty => q = p
  | Literal c => exists after, snd p = c :: after /\ q = (Some c, after)
  | In_ negate items =>
      exists c after,
        snd p = c :: after /\ charset db negate items c = true
        /\ q = (Some c, after)
  | At_boundary => at_boundary db p = true /\ q = p
  | At_non_boundary => at_boundary db p = false /\ q = p
  | Seq r1 r2 => exists m, matches r1 p m /\ matches r2 m q
  | Branch r1 r2 => matches r1 p q \/ matches r2 p q
  | Max_repeat min max r =>
      exists k,
        (min <= k)%nat /\ (forall m, max = Some m -> (k <= m)%nat)
        /\ power (matches r) k p q
  end.

End Semantics.

(** The bounds of every repetition are in order, as the parser makes
    sure. *)
Fixpoint bounds_in_order (r : regex) : bool :=
  match r with
  | Seq r1 r2 | Branch r1 r2 => bounds_in_order r1 && bounds_in_order r2
  | Max_repeat min max r =>
      match max with
      | Some m => (min <=? m)%nat
      | None => true
      end && bounds_in_order r
  | _ => true
  end.

(** Entries of the first and of the third pass, by their fixed prefix. *)
Definition is_discriminatory_entry (m : pystr) : bool :=
  startswith m (py "Discriminatory reasoning detected: '").

Definition is_unprofessional_entry (m : pystr) : bool :=
  startswith m (py "Unprofessional language: ").

(** Two calls in a row. *)
Definition twice {A} (m : M A) : M (A * A) :=
  a <- m ;; b <- m ;; ret (a, b).

(** A small part of the Unicode database, at which the theorems are
    tried: the Latin-1 letters and their lower case, the Arabic-Indic
    digits, the no-break space and the line separator, and the capital I
    with a dot, whose lower case is two code points long. *)
Definition latin1_letter (c : codepoint) : bool :=
  between 192 255 c && negb (c =? 215) && negb (c =? 247).

Definition arabic_indic_digit (c : codepoint) : bool := between 1632 1641 c.

Definition sample_ucd : ucd := {|
  ucd_isalpha := latin1_letter;
  ucd_isdecimal := arabic_indic_digit;
  ucd_isdigit := arabic_indic_digit;
  ucd_isnumeric := arabic_indic_digit;
  ucd_isspace := fun c => (c =? 160) || (c =? 8232);
  ucd_lower := fun _ c _ =>
    if between 192 222 c && negb (c =? 215) then [c + 32]
    else if c =? 304 then [105; 775]
    else [c];
|}.

(** ** The shapes of text that the PII patterns describe *)

(** The lower case of an ASCII code point. *)
Definition ascii_tolower (c : codepoint) : codepoint :=
  if between (ord "A") (ord "Z") c then c + 32 else c.

(** The three bracketed sets of the email pattern. *)
Definition is_local_char (c : codepoint) : bool :=
  is_ascii_letter c || is_ascii_digit c || (c =? ord ".") || (c =? ord "_")
  || (c =? ord "%") || (c =? ord "+") || (c =? ord "-").

Definition is_domain_char (c : codepoint) : bool :=
  is_ascii_letter c || is_ascii_digit c || (c =? ord ".") || (c =? ord "-").

Definition is_tld_char (c : codepoint) : bool :=
  is_ascii_letter c || (c =? ord "|").

(** Nothing, or one code point that satisfies [ok]. *)
Definition optional (ok : codepoint -> bool) (s : pystr) : Prop :=
  s = [] \/ exists c, s = [c] /\ ok c = true.

Section Shapes.

Variable db : ucd.

(** A member of the set [[-.\s]]. *)
Definition is_separator (c : codepoint) : bool :=
  (c =? ord "-") || (c =? ord ".") || Py_UNICODE_ISSPACE db c.

(** [n] decimal digits. *)
Definition decimal_digits (n : nat) (ds : pystr) : Prop :=
  length ds = n /\ Forall (fun c => Py_UNICODE_ISDECIMAL db c = true) ds.

(** What the group [(?:\+?\d{1,3}[-.\s]?)?] matches: nothing, or an
    optional plus sign, one to three digits and an optional separator. *)
Definition country_code (cc : pystr) : Prop :=
  cc = [] \/
  exists plus ds sep,
    cc = plus ++ ds ++ sep
    /\ optional (N.eqb (ord "+")) plus
    /\ (1 <= length ds <= 3)%nat
    /\ Forall (fun c => Py_UNICODE_ISDECIMAL db c = true) ds
    /\ optional is_separator sep.

(** The text is at a word boundary between [x] and [s]. *)
Definition boundary_between (x s : pystr) : Prop :=
  at_boundary db (last_of None x, s) = true.

End Shapes.

(** ** [student_support/app.py]

    The helper functions that work on text, and the prompt handling of the
    [/support] route. The crew of agents is outside the repository: what it
    answers to a task description is a parameter. *)

(** [s.lstrip()], [s.rstrip()] and [s.strip()]: white space is what
    [str.isspace] says. *)
Section Strip.

Variable db : ucd.

Fixpoint lstrip (s : pystr) : pystr :=
  match s with
  | [] => []
  | c :: s' => if Py_UNICODE_ISSPACE db c then lstrip s' else s
  end.

Definition rstrip (s : pystr) : pystr := rev (lstrip (rev s)).

Definition strip (s : pystr) : pystr := rstrip (lstrip s).

End Strip.

(** [s.replace(old, new)] and [s.split(sep)] for a non-empty [old] and
    [sep]: the text is read from the left, and where [old] or [sep] starts
    it is replaced or cut out and reading goes on after it. [skip] counts
    the code points of an occurrence that are still to be passed over. *)
Fixpoint replace_go (old new : pystr) (skip : nat) (s : pystr) : pystr :=
  match s with
  | [] => []
  | c :: s' =>
      match skip with
      | S k => replace_go old new k s'
      | O =>
          if startswith s old
          then new ++ replace_go old new (length old - 1) s'
          else c :: replace_go old new 0 s'
      end
  end.

Definition str_replace (s old new : pystr) : pystr :=
  replace_go old new 0 s.

Fixpoint split_go (sep : pystr) (skip : nat) (cur s : pystr) : list pystr :=
  match s with
  | [] => [cur]
  | c :: s' =>
      match skip with
      | S k => split_go sep k cur s'
      | O =>
          if startswith s sep
          then cur :: split_go sep (length sep - 1) [] s'
          else split_go sep 0 (cur ++ [c]) s'
      end
  end.

Definition str_split (s sep : pystr) : list pystr := split_go sep 0 [] s.

(** The line feed, and a string of [n] of them. *)
Definition LF : codepoint := 10.

Definition newlines (n : nat) : pystr := repeat LF n.

(** [list(dict.fromkeys(l))]: the keys in the order of their first
    insertion. *)
Definition dict_fromkeys (l : list pystr) : list pystr :=
  fold_left (fun keys k => if decide (k ∈ keys) then keys else keys ++ [k])
    l [].

(** What one run of the crew gives: the text of its result, or the text of
    the exception it raises. *)
Inductive crew_outcome :=
  | Answer (output : pystr)
  | Failure (message : pystr).

Module StudentSupport.

(** The type of what a route returns or raises. *)
Definition raises (A : Type) : Type := result A.

Record StudentRequest := { prompt : pystr }.

Record SupportResponse := { status : pystr; result : pystr }.

Definition keywords : list pystr := [
  (* programming languages *)
  py "Python"; py "Java"; py "JavaScript"; py "C++"; py "R"; py "SQL";
  py "Go"; py "Rust";
  (* data science and AI *)
  py "Machine Learning"; py "Data Analysis"; py "Statistics";
  py "Deep Learning"; py "AI"; py "Neural Networks"; py "Data Science";
  py "Analytics";
  (* business and management *)
  py "Digital Marketing"; py "Business Strategy"; py "Project Management";
  py "Marketing"; py "Management"; py "Leadership"; py "Entrepreneurship";
  (* technical skills *)
  py "Cloud Computing"; py "DevOps"; py "Cybersecurity"; py "Web Development";
  py "Mobile Development"; py "Database"; py "API";
  (* tools and frameworks *)
  py "Excel"; py "Tableau"; py "Power BI"; py "Git"; py "Docker";
  py "Kubernetes";
  (* soft skills *)
  py "Communication"; py "Problem Solving"; py "Critical Thinking";
  py "Teamwork"; py "Presentation"
].

(** The error of the [/support] route for a missing or blank prompt. *)
Definition prompt_cannot_be_empty : exn :=
  HTTPException 400
    (JStr (py "Prompt cannot be empty. Provide via JSON body, " ++
           py "?key= or ?prompt= parameter")).

Section Routes.

Variable db : ucd.

(** [str(crew.kickoff())] for the crew whose analysis task has the given
    description, or the text of the exception that building or running the
    crew raises. *)
Variable kickoff : pystr -> crew_outcome.

Definition run_student_support_crew (prompt : pystr) : crew_outcome :=
  kickoff (py "Analyze the following student request:" ++ [10] ++ prompt).

(** The truth value of an optional string: neither [None] nor empty. *)
Definition truthy (s : option pystr) : bool :=
  match s with
  | Some (_ :: _) => true
  | _ => false
  end.

Definition get_student_support (request : option StudentRequest)
  (key prompt : option pystr) : raises SupportResponse :=
  let user_prompt : option pystr := None in
  let user_prompt :=
    if truthy (StudentSupport.prompt <$> request)
    then StudentSupport.prompt <$> request
    else if truthy key then key
    else if truthy prompt then prompt
    else user_prompt in
  match user_prompt with
  | Some user_prompt =>
      if negb (nonempty user_prompt) || negb (nonempty (strip db user_prompt))
      then Raise prompt_cannot_be_empty
      else
        match run_student_support_crew user_prompt with
        | Answer result =>
            Ok {| status := py "success"; result := result |}
        | Failure e =>
            Raise (HTTPException 500
                     (JStr (py "Error processing student support request: "
                            ++ e)))
        end
  | None => Raise prompt_cannot_be_empty
  end.

Definition extract_learning_paths (message : pystr) : list pystr :=
  let paths :=
    fold_left
      (fun paths keyword =>
         if contains (str_lower db message) (str_lower db keyword)
         then paths ++ [keyword]
         else paths)
      keywords [] in
  let unique_paths := dict_fromkeys paths in
  if nonempty unique_paths
  then take 5 unique_paths
  else [py "Data Analysis"; py "Python"; py "Communication"].

End Routes.

Definition artifacts_to_remove : list pystr := [
  py "Your final answer must be the great and the most complete as possible";
  py "it must be outcome described";
  py "Begin! This is VERY important to you";
  py "use the tools available and give your best Final Answer";
  py "your job depends on it";
  py "I now can give a great answer";
  py "I MUST use these formats, my job depends on it!";
  py "### User:";
  py "Current Task:";
  py "Thought:";
  py "Action:"
].

(** The markers of system messages. *)
Definition markers : list pystr :=
  [py "Thought:"; py "Action:"; py "### User:"; py "Current Task:"].

Section FinalAnswer.

Variable db : ucd.

(** One turn of the loop over the lines, on the pair of [clean_lines] and
    [skip_next]. *)
Definition keep_line (state : list pystr * bool) (line : pystr)
  : list pystr * bool :=
  let (clean_lines, skip_next) := state in
  let stripped := strip db line in
  (* skip empty lines at start *)
  if negb (nonempty clean_lines) && negb (nonempty stripped) then state
  (* skip system messages *)
  else if existsb (fun marker => contains stripped marker) markers
  then (clean_lines, true)
  else if skip_next && negb (nonempty stripped) then (clean_lines, false)
  else (clean_lines ++ [line], skip_next).

(** [while '\n\n\n' in result: result = result.replace('\n\n\n',
    '\n\n')], for at most [fuel] turns. *)
Fixpoint collapse (fuel : nat) (result : pystr) : pystr :=
  match fuel with
  | O => result
  | S fuel' =>
      if contains result (newlines 3)
      then collapse fuel' (str_replace result (newlines 3) (newlines 2))
      else result
  end.

Definition extract_final_answer (crew_output : pystr) : pystr :=
  let output :=
    if contains crew_output (py "Final Answer:") then
      let parts := str_split crew_output (py "Final Answer:") in
      if (1 <? length parts)%nat
      then strip db (List.last parts [])
      else crew_output
    else crew_output in
  let output :=
    fold_left (fun output artifact => str_replace output artifact [])
      artifacts_to_remove output in
  let lines := str_split output [LF] in
  let clean_lines := fst (fold_left keep_line lines ([], false)) in
  let result := strip db (join [LF] clean_lines) in
  (* every turn of the loop makes the text shorter *)
  let result := collapse (length result) result in
  if nonempty result then result else py "No response generated".

End FinalAnswer.

(** *** The formatters of the crew prompt

    [format_jobs_for_prompt], [format_skills_for_prompt] and
    [format_ethics_for_prompt] get what the search service sent: decoded
    JSON of any shape. They raise [TypeError] or [AttributeError] on
    some of it, which is [None] here. *)

(** [bool(v)]. *)
Definition truth (v : json) : bool :=
  match v with
  | JNone => false
  | JBool b => b
  | JInt z => negb (z =? 0)%Z
  | JFloat (S754_zero _) => false
  | JFloat _ => true
  | JStr s => nonempty s
  | JList l => nonempty l
  | JDict d => nonempty (map_to_list d)
  end.

(** [v[:n]]: strings and lists can be sliced, nothing else can. *)
Definition upto (n : nat) (v : json) : option json :=
  match v with
  | JStr s => Some (JStr (take n s))
  | JList l => Some (JList (take n l))
  | _ => None
  end.

(** What a [for] loop over a slice [v] goes through. *)
Definition elements (v : json) : option (list json) :=
  match v with
  | JList l => Some l
  | JStr s => Some ((fun c => JStr [c]) <$> s)
  | _ => None
  end.

(** [enumerate(l, i)]. *)
Fixpoint enumerate {A} (i : nat) (l : list A) : list (nat * A) :=
  match l with
  | [] => []
  | x :: l => (i, x) :: enumerate (S i) l
  end.

(** [m] and then [k], unless [m] raises. *)
Definition and_then {A B} (m : option A) (k : A -> option B) : option B :=
  match m with
  | Some a => k a
  | None => None
  end.

(** A loop that appends one line for every item, unless the line of an
    item raises. *)
Fixpoint append_lines {A} (line : A -> option pystr) (items : list A)
  (formatted : list pystr) : option (list pystr) :=
  match items with
  | [] => Some formatted
  | item :: items =>
      match line item with
      | Some l => append_lines line items (formatted ++ [l])
      | None => None
      end
  end.

Section Formatters.

(** [str(v)] for the values that are not strings. *)
Variable str_of : json -> pystr.

(** How an f-string renders a value, and an index. *)
Definition rendered (v : json) : pystr :=
  match v with
  | JStr s => s
  | _ => str_of v
  end.

Definition rendered_int (i : nat) : pystr :=
  py (NilEmpty.string_of_uint (Nat.to_uint i)).

(** [job.get('study_program') or job.get('title')
     or job.get('content', 'No content')[:100]] *)
Definition job_text (job : json) : option json :=
  match job with
  | JDict job =>
      let study_program := default JNone (job !! py "study_program") in
      if truth study_program then Some study_program
      else
        let title := default JNone (job !! py "title") in
        if truth title then Some title
        else upto 100 (default (JStr (py "No content")) (job !! py "content"))
  | _ => None
  end.

Definition format_jobs_for_prompt (jobs : json) : option pystr :=
  if negb (truth jobs) then Some (py "...")
  else
    and_then (and_then (upto 5 jobs) elements) (fun first_jobs =>
    and_then
      (append_lines
         (fun '(i, job) =>
            and_then (job_text job) (fun text =>
            Some (rendered_int i ++ py ". " ++ rendered text)))
         (enumerate 1 first_jobs) []) (fun formatted =>
    Some (join [LF] formatted))).

(** [skill.get('study_program') or skill.get('title', 'Unknown')] and
    [skill.get('skills', skill.get('content', ''))] *)
Definition skill_line (i : nat) (skill : json) : option pystr :=
  match skill with
  | JDict skill =>
      let study_program := default JNone (skill !! py "study_program") in
      let program :=
        if truth study_program then study_program
        else default (JStr (py "Unknown")) (skill !! py "title") in
      let skill_list :=
        default (default (JStr []) (skill !! py "content"))
                (skill !! py "skills") in
      Some (rendered_int i ++ py ". " ++ rendered program ++ py ": " ++
            rendered skill_list)
  | _ => None
  end.

Definition format_skills_for_prompt (skills : json) : option pystr :=
  if negb (truth skills)
  then Some (py "No specific skills provided - recommend based on query")
  else
    and_then (and_then (upto 5 skills) elements) (fun first_skills =>
    and_then
      (append_lines (fun '(i, skill) => skill_line i skill)
                    (enumerate 1 first_skills) []) (fun formatted =>
    Some (join [LF] formatted))).

Definition guideline_line (guideline : json) : option pystr :=
  match guideline with
  | JDict guideline =>
      let title :=
        default (JStr (py "Ethics Guideline")) (guideline !! py "title") in
      and_then (upto 150 (default (JStr []) (guideline !! py "content")))
        (fun content =>
           Some (py "- " ++ rendered title ++ py ": " ++ rendered content ++
                 py "..."))
  | _ => None
  end.

Definition format_ethics_for_prompt (ethics : json) : option pystr :=
  if negb (truth ethics)
  then Some (py "Standard ethics: Provide fair, unbiased, " ++
             py "merit-based recommendations")
  else
    and_then (and_then (upto 3 ethics) elements) (fun first_ethics =>
    and_then (append_lines guideline_line first_ethics []) (fun formatted =>
    Some (join [LF] formatted))).

End Formatters.

End StudentSupport.

(** The keywords that occur in the message, both in lower case. *)
Definition mentioned (db : ucd) (message : pystr) : list pystr :=
  List.filter
    (fun keyword => contains (str_lower db message) (str_lower db keyword))
    StudentSupport.keywords.

(** A string of white space only (the empty string is one), and an
    optional string that is missing or of white space only. *)
Definition blank (db : ucd) (s : pystr) : bool :=
  forallb (Py_UNICODE_ISSPACE db) s.

Definition no_text (db : ucd) (s : option pystr) : bool :=
  match s with
  | Some s => blank db s
  | None => true
  end.

(** A string that no line feed occurs in. *)
Definition one_line (m : pystr) : Prop := ~ In LF m.

(** A string that neither starts nor ends with white space (the empty
    string is one). *)
Definition no_space (db : ucd) (c : option codepoint) : Prop :=
  match c with
  | Some c => Py_UNICODE_ISSPACE db c = false
  | None => True
  end.

Definition trimmed (db : ucd) (s : pystr) : Prop :=
  no_space db (head s) /\ no_space db (head (rev s)).

(** A list of lines that hold none of the markers. *)
Definition marker_free (lines : list pystr) : Prop :=
  Forall (fun line => forall m, In m StudentSupport.markers ->
                                contains line m = false) lines.


(** A value that is no JSON object, a value that cannot be sliced, and a
    key of an object that is missing or holds a value that counts as
    false. *)
Definition not_an_object (v : json) : Prop := forall d, v <> JDict d.

Definition no_slice (v : json) : Prop :=
  (forall s, v <> JStr s) /\ (forall l, v <> JList l).

Definition falsy_at (d : gmap pystr json) (key : pystr) : Prop :=
  forall v, d !! key = Some v -> StudentSupport.truth v = false.

(** * Properties *)

(** ** Substrings *)

Lemma startswith_app (p rest : pystr) : startswith (p ++ rest) p = true.
Proof.
  induction p as [|a p IH]; simpl; [reflexivity|].
  now rewrite N.eqb_refl, IH.
Qed.

Lemma startswith_inv (s p : pystr) :
  startswith s p = true -> exists rest, s = p ++ rest.
Proof.
  revert s; induction p as [|a p IH]; intros s H.
  - now exists s.
  - destruct s as [|b s]; simpl in H; [discriminate|].
    apply andb_prop in H as [Hab H]. apply N.eqb_eq in Hab. subst b.
    destruct (IH _ H) as [rest ->]. now exists rest.
Qed.

Lemma contains_startswith (s p : pystr) :
  startswith s p = true -> contains s p = true.
Proof. destruct s; simpl; intros ->; reflexivity. Qed.

Lemma contains_app (before p after : pystr) :
  contains (before ++ p ++ after) p = true.
Proof.
  induction before as [|c before IH]; simpl.
  - apply contains_startswith, startswith_app.
  - rewrite IH. apply orb_true_r.
Qed.

Lemma contains_inv (s p : pystr) :
  contains s p = true -> exists before after, s = before ++ p ++ after.
Proof.
  induction s as [|c s IH]; simpl; intros H.
  - rewrite orb_false_r in H. apply startswith_inv in H as [rest ->].
    now exists [], rest.
  - apply orb_prop in H as [H|H].
    + apply startswith_inv in H as [rest ->]. now exists [], rest.
    + destruct (IH H) as (before & after & ->). now exists (c :: before), after.
Qed.

(** ** Lower-casing keeps lower-case ASCII text in place *)

Section Lowering.

Variable db : ucd.

Lemma do_lower_app (before x y : pystr) :
  exists l, do_lower db before (x ++ y) = l ++ do_lower db (before ++ x) y.
Proof.
  revert before; induction x as [|c x IH]; intros before; simpl.
  - exists []. now rewrite app_nil_r.
  - destruct (IH (before ++ [c])) as [l ->].
    exists (lower_ucs4 db before c (x ++ y) ++ l).
    now rewrite <- !app_assoc.
Qed.

Lemma do_lower_uncapital (before p after : pystr) :
  forallb ascii_uncapital p = true ->
  do_lower db before (p ++ after) = p ++ do_lower db (before ++ p) after.
Proof.
  revert before; induction p as [|c p IH]; intros before H; simpl.
  - now rewrite app_nil_r.
  - simpl in H. apply andb_prop in H as [Hc Hp].
    unfold ascii_uncapital in Hc. apply andb_prop in Hc as [Ha Hu].
    unfold lower_ucs4. rewrite Ha.
    apply negb_true_iff in Hu. rewrite Hu. simpl.
    rewrite (IH _ Hp). now rewrite <- app_assoc.
Qed.

(** A lower-case ASCII phrase found in the text is found in the
    lower-cased text. *)
Lemma contains_lower (text p : pystr) :
  forallb ascii_uncapital p = true ->
  contains text p = true -> contains (str_lower db text) p = true.
Proof.
  intros Hp H. apply contains_inv in H as (before & after & ->).
  unfold str_lower. destruct (do_lower_app [] before (p ++ after)) as [l ->].
  rewrite (do_lower_uncapital _ _ _ Hp). apply contains_app.
Qed.

End Lowering.

(** ** The loops of the checker *)

Lemma fold_left_append {A B} (keep : A -> bool) (f : A -> B) (l : list A)
  (acc : list B) :
  fold_left (fun acc x => if keep x then acc ++ [f x] else acc) l acc
  = acc ++ List.map f (List.filter keep l).
Proof.
  revert acc; induction l as [|x l IH]; intros acc; simpl.
  - now rewrite app_nil_r.
  - rewrite IH. destruct (keep x); simpl; [|reflexivity].
    now rewrite <- app_assoc.
Qed.

(** Two elements that a filter keeps stay in their order. *)
Lemma kept_in_order {A B} (f : A -> B) (keep : A -> bool) (a b : A)
  (l2 l3 : list A) (rest : list B) :
  keep a = true -> keep b = true ->
  exists m2 m3,
    List.map f (List.filter keep ([a] ++ l2 ++ [b] ++ l3)) ++ rest
    = [f a] ++ m2 ++ [f b] ++ m3.
Proof.
  intros Ha Hb.
  exists (List.map f (List.filter keep l2)),
         (List.map f (List.filter keep l3) ++ rest).
  rewrite !List.filter_app. cbn [List.filter]. rewrite Ha, Hb.
  rewrite !List.map_app. cbn [List.map]. now rewrite <- !app_assoc.
Qed.

(** ** The pattern cache *)

Lemma cache_ok_nil : cache_ok [].
Proof. constructor. Defined.

Lemma cache_get_ok (pattern : pystr) (cache : re_cache) (p : regex) :
  cache_ok cache -> cache_get pattern cache = Some p ->
  sre_compile pattern = Ok p.
Proof.
  induction 1 as [|[k q] cache Hk Hc IH]; simpl; [discriminate|].
  destruct (decide (k = pattern)) as [->|_]; [|assumption].
  intros [= ->]. exact Hk.
Qed.

Lemma cache_ok_tail (cache : re_cache) :
  cache_ok cache -> cache_ok (tail cache).
Proof. destruct 1; [constructor | assumption]. Qed.

(** A pattern that compiles is served the same from any cache in good
    order, and leaves the cache in good order. *)
Lemma re_compile_run (pattern : pystr) (r : regex) (cache : re_cache) :
  cache_ok cache -> sre_compile pattern = Ok r ->
  exists cache', re_compile pattern cache = (Ok r, cache') /\ cache_ok cache'.
Proof.
  intros Hc Hr. unfold re_compile.
  destruct (cache_get pattern cache) as [p|] eqn:E.
  - apply (cache_get_ok _ _ _ Hc) in E. rewrite Hr in E.
    injection E as <-. now exists cache.
  - rewrite Hr. eexists; split; [reflexivity|].
    apply Forall_app; split.
    + destruct (_ <=? _)%nat; [now apply cache_ok_tail | assumption].
    + constructor; [exact Hr | constructor].
Qed.

Lemma compile_email : sre_compile (py
  "\b[A-Za-z0-9._%+-]+@[A-Za-z0-9.-]+\.[A-Z|a-z]{2,}\b") = Ok email_re.
Proof. vm_compute. reflexivity. Qed.

Lemma compile_phone : sre_compile (py
  "\b(?:\+?\d{1,3}[-.\s]?)?\(?\d{3}\)?[-.\s]?\d{3}[-.\s]?\d{4}\b")
  = Ok phone_re.
Proof. vm_compute. reflexivity. Qed.

Lemma compile_ssn : sre_compile (py "\b\d{3}-\d{2}-\d{4}\b") = Ok ssn_re.
Proof. vm_compute. reflexivity. Qed.

Section Running.

Variable db : ucd.

Lemma re_search_run (pattern text : pystr) (r : regex) (cache : re_cache) :
  cache_ok cache -> sre_compile pattern = Ok r ->
  exists cache',
    re_search db pattern text cache = (Ok (search db r text), cache')
    /\ cache_ok cache'.
Proof.
  intros Hc Hr. unfold re_search, bind.
  destruct (re_compile_run _ _ _ Hc Hr) as (cache' & -> & Hc').
  now exists cache'.
Qed.

(** From a cache in good order the checker returns the three passes,
    and leaves the cache in good order. *)
Lemma policy_check_run (text : pystr) (cache : re_cache) :
  cache_ok cache ->
  exists cache',
    policy_check db text cache = (Ok (three_passes db text), cache')
    /\ cache_ok cache'.
Proof.
  intros Hc. unfold policy_check. rewrite fold_left_append.
  change (List.map _ (List.filter _ BANNED_PATTERNS))
    with (discriminatory_pass db text).
  change (List.filter _ unprofessional_words) with (matched_words db text).
  unfold three_passes, pii_pass, unprofessional_pass, detects, pii_message,
    unprofessional_message.
  generalize (discriminatory_pass db text) (matched_words db text).
  intros dis words.
  unfold PII_PATTERNS, for_in, bind.
  destruct (re_search_run _ text _ _ Hc compile_email) as (c1 & -> & Hc1).
  unfold ret at 1.
  destruct (re_search_run _ text _ _ Hc1 compile_phone) as (c2 & -> & Hc2).
  unfold ret at 1.
  destruct (re_search_run _ text _ _ Hc2 compile_ssn) as (c3 & -> & Hc3).
  unfold ret. exists c3. split; [|assumption]. f_equal. f_equal.
  rewrite app_nil_l.
  destruct (is_some (search db email_re text)),
           (is_some (search db phone_re text)),
           (is_some (search db ssn_re text));
    destruct words; cbn [nonempty app];
    rewrite <- ?app_assoc, ?app_nil_r; reflexivity.
Qed.

(** Both routes leave the cache in good order, so it is in good order
    whenever a request arrives. *)
Lemma validate_text_keeps_cache (payload : TextValidationRequest)
  (cache : re_cache) :
  cache_ok cache -> cache_ok (snd (validate_text db payload cache)).
Proof.
  intros Hc. unfold validate_text, bind.
  destruct (policy_check_run (text payload) cache Hc) as (c' & -> & Hc').
  now destruct (nonempty _).
Qed.

Lemma validate_text_strict_keeps_cache (payload : gmap pystr json)
  (cache : re_cache) :
  cache_ok cache -> cache_ok (snd (validate_text_strict db payload cache)).
Proof.
  intros Hc. unfold validate_text_strict.
  destruct (dict_get payload (py "text")) as [| | | |t| |]; try exact Hc.
  unfold bind.
  destruct (policy_check_run t cache Hc) as (c' & -> & Hc').
  now destruct (nonempty _).
Qed.

End Running.

(** ** Matching: how a match is built *)

(** ** The matcher finds exactly the matches *)

Lemma power_add (R : pos -> pos -> Prop) (a b : nat) (p q : pos) :
  power R (a + b) p q <-> exists m, power R a p m /\ power R b m q.
Proof.
  revert p; induction a as [|a IH]; intros p; cbn [Nat.add power].
  - split.
    + intros H. now exists p.
    + now intros (m & -> & H).
  - split.
    + intros (m & Hm & H). apply IH in H as (m' & H1 & H2).
      exists m'. split; [now exists m | exact H2].
    + intros (m' & (m & Hm & H1) & H2). exists m. split; [exact Hm|].
      apply IH. now exists m'.
Qed.

Lemma power_advances (R : pos -> pos -> Prop) (k : nat) :
  advances R -> advances (power R k).
Proof.
  intros HR. induction k as [|k IH]; intros p q; cbn [power].
  - now left.
  - intros (m & Hm & H). apply HR in Hm. apply IH in H.
    destruct Hm as [->|Hm], H as [->|H]; auto. right. lia.
Qed.

(** The steps in place can be left out: no more steps are needed than
    there is text left. *)
Lemma power_short (R : pos -> pos -> Prop) (k : nat) (p q : pos) :
  advances R -> power R k p q ->
  exists j, (j <= length (snd p))%nat /\ power R j p q.
Proof.
  intros HR. revert p; induction k as [|k IH]; intros p; cbn [power].
  - intros ->. exists 0%nat. split; [lia | reflexivity].
  - intros (m & Hm & H). destruct (IH _ H) as (j & Hj & Hpow).
    destruct (HR _ _ Hm) as [->|Hlt].
    + now exists j.
    + exists (S j). split; [lia|]. now exists m.
Qed.

Lemma times_power (f : pos -> list pos) (R : pos -> pos -> Prop) :
  (forall p q, In q (f p) <-> R p q) ->
  forall n p q, In q (times f n p) <-> power R n p q.
Proof.
  intros Hf. induction n as [|n IH]; intros p q; cbn [times power].
  - split; [now intros [<-|[]] | intros ->; now left].
  - rewrite in_flat_map. split; intros (m & H1 & H2); exists m.
    + split; [now apply Hf | now apply IH].
    + split; [now apply Hf | now apply IH].
Qed.

Lemma upto_power (f : pos -> list pos) (R : pos -> pos -> Prop) :
  (forall p q, In q (f p) <-> R p q) ->
  forall n p q,
    In q (upto f n p) <-> exists k, (k <= n)%nat /\ power R k p q.
Proof.
  intros Hf. induction n as [|n IH]; intros p q; cbn [upto].
  - split.
    + intros [<-|[]]. exists 0%nat. split; [lia | reflexivity].
    + intros (k & Hk & H). assert (k = 0%nat) as -> by lia.
      cbn [power] in H. subst q. now left.
  - rewrite in_app_iff, in_flat_map. split.
    + intros [(m & H1 & H2)|[<-|[]]].
      * apply IH in H2 as (k & Hk & H2). exists (S k). split; [lia|].
        exists m. split; [now apply Hf | exact H2].
      * exists 0%nat. split; [lia | reflexivity].
    + intros ([|k] & Hk & H); cbn [power] in H.
      * subst q. right. now left.
      * destruct H as (m & H1 & H2). left. exists m.
        split; [now apply Hf|]. apply IH. exists k. split; [lia | exact H2].
Qed.

Section MatcherIsRight.

Variable db : ucd.

Lemma matches_advances (r : regex) : advances (matches db r).
Proof.
  induction r as [| c | negate items | | | r1 IH1 r2 IH2 | r1 IH1 r2 IH2
                 | min max r IH]; intros p q; cbn [matches].
  - now left.
  - intros (after & Hp & ->). right. rewrite Hp. simpl. lia.
  - intros (c & after & Hp & _ & ->). right. rewrite Hp. simpl. lia.
  - intros [_ ->]. now left.
  - intros [_ ->]. now left.
  - intros (m & H1 & H2). apply IH1 in H1. apply IH2 in H2.
    destruct H1 as [->|H1], H2 as [->|H2]; auto. right. lia.
  - intros [H|H]; [now apply IH1 | now apply IH2].
  - intros (k & _ & _ & H). now apply (power_advances _ k IH).
Qed.

(** The positions that [run] lists are the ends of the matches. *)
Theorem run_matches (r : regex) :
  bounds_in_order r = true ->
  forall p q, In q (run db r p) <-> matches db r p q.
Proof.
  induction r as [| c | negate items | | | r1 IH1 r2 IH2 | r1 IH1 r2 IH2
                 | min max r IH]; cbn [bounds_in_order]; intros Hwf p q;
    cbn [run matches].
  - split; [now intros [<-|[]] | intros ->; now left].
  - unfold one. destruct (snd p) as [|c' after].
    + split; [intros [] | now intros (? & ? & _)].
    + destruct (N.eqb_spec c c') as [<-|Hne].
      * split; [intros [<-|[]]; now exists after|].
        intros (a & [= <-] & ->). now left.
      * split; [intros [] | intros (a & [= E] & _); congruence].
  - unfold one. destruct (snd p) as [|c after].
    + split; [intros [] | now intros (? & ? & ? & _)].
    + destruct (charset db negate items c) eqn:E.
      * split; [intros [<-|[]]; now exists c, after|].
        intros (c' & a & [= <- <-] & _ & ->). now left.
      * split; [intros [] | intros (c' & a & [= <- <-] & E' & _); congruence].
  - destruct (at_boundary db p).
    + split; [now intros [<-|[]] | intros [_ ->]; now left].
    + split; [intros [] | now intros [? _]].
  - destruct (at_boundary db p).
    + split; [intros [] | now intros [? _]].
    + split; [now intros [<-|[]] | intros [_ ->]; now left].
  - apply andb_prop in Hwf as [H1 H2]. rewrite in_flat_map.
    split; intros (m & Hm & Hq); exists m.
    + split; [now apply IH1 | now apply IH2].
    + split; [now apply IH1 | now apply IH2].
  - apply andb_prop in Hwf as [H1 H2]. rewrite in_app_iff.
    now rewrite (IH1 H1), (IH2 H2).
  - apply andb_prop in Hwf as [Hb Hr]. specialize (IH Hr).
    rewrite in_flat_map. split.
    + intros (m & Hm & Hq).
      apply (times_power _ _ IH) in Hm. apply (upto_power _ _ IH) in Hq.
      destruct Hq as (j & Hj & Hq). exists (min + j)%nat.
      split; [lia|]. split.
      * intros b ->. apply Nat.leb_le in Hb. lia.
      * apply power_add. now exists m.
    + intros (k & Hmin & Hmax & H).
      replace k with (min + (k - min))%nat in H by lia.
      apply power_add in H as (m & Hm & Hq). exists m.
      split; [now apply (times_power _ _ IH)|].
      apply (upto_power _ _ IH). destruct max as [b|].
      * exists (k - min)%nat. specialize (Hmax b eq_refl).
        split; [lia | exact Hq].
      * now apply (power_short _ (k - min) _ _ (matches_advances r)).
Qed.

End MatcherIsRight.

Section MatchingFacts.

Variable db : ucd.

Lemma run_seq (r1 r2 : regex) (p q q' : pos) :
  In q (run db r1 p) -> In q' (run db r2 q) -> In q' (run db (Seq r1 r2) p).
Proof. intros H1 H2. cbn [run]. apply in_flat_map. eauto. Qed.

Lemma run_opt_skip (r : regex) (p : pos) : In p (run db (opt r) p).
Proof.
  unfold opt. cbn [run times flat_map upto]. rewrite app_nil_r.
  apply in_or_app. right. now left.
Qed.

Lemma run_boundary (p : pos) :
  at_boundary db p = true -> In p (run db At_boundary p).
Proof. intros H. cbn [run]. rewrite H. now left. Qed.

(** After exactly [n] steps of [f], under no further repetition. *)
Lemma run_exactly (n : nat) (r : regex) (p q : pos) :
  In q (times (run db r) n p) -> In q (run db (exactly n r) p).
Proof.
  intros H. unfold exactly. cbn [run]. apply in_flat_map. exists q.
  split; [exact H|]. rewrite Nat.sub_diag. now left.
Qed.

Lemma times_digits (ds after : pystr) (before : option codepoint) :
  Forall (fun c => Py_UNICODE_ISDECIMAL db c = true) ds ->
  In (last_of before ds, after)
     (times (run db digit) (length ds) (before, ds ++ after)).
Proof.
  intros H. revert before. induction H as [|c ds Hc _ IH]; intros before.
  - now left.
  - cbn [length times app last_of]. apply in_flat_map.
    exists (Some c, ds ++ after). split; [|apply IH].
    unfold digit. cbn [run one snd]. unfold charset.
    cbn [existsb in_item in_category xorb]. rewrite Hc. now left.
Qed.

(** A run of [n] decimal digits is matched by [\d{n}]. *)
Lemma run_digits (n : nat) (ds after : pystr) (before : option codepoint) :
  length ds = n ->
  Forall (fun c => Py_UNICODE_ISDECIMAL db c = true) ds ->
  In (last_of before ds, after)
     (run db (exactly n digit) (before, ds ++ after)).
Proof. intros <- H. now apply run_exactly, times_digits. Qed.

Lemma decimal_is_word (c : codepoint) :
  Py_UNICODE_ISDECIMAL db c = true -> SRE_UNI_IS_WORD db c = true.
Proof.
  intros H. unfold SRE_UNI_IS_WORD, Py_UNICODE_ISALNUM. rewrite H.
  now rewrite orb_true_r.
Qed.

(** A match found at the position after [x] makes the search succeed. *)
Lemma search_from_app (r : regex) (n i : nat) (before : option codepoint)
  (x s : pystr) :
  run db r (last_of before x, s) <> [] ->
  is_some (search_from db r n i before (x ++ s)) = true.
Proof.
  revert i before; induction x as [|c x IH]; intros i before H.
  - cbn [app last_of] in *. destruct s; cbn [search_from];
      destruct (run db r _) as [|[? ?] ?]; try reflexivity; now destruct H.
  - cbn [app search_from last_of] in *.
    destruct (run db r (before, _)) as [|[? ?] ?]; [|reflexivity].
    now apply IH.
Qed.

Lemma search_at (r : regex) (x s : pystr) (q : pos) :
  In q (run db r (last_of None x, s)) -> detects db r (x ++ s) = true.
Proof.
  intros H. unfold detects, search. apply search_from_app.
  intros E. rewrite E in H. destruct H.
Qed.

Lemma search_from_inv (r : regex) (n i : nat) (before : option codepoint)
  (s : pystr) :
  is_some (search_from db r n i before s) = true ->
  exists (x s' : pystr) q,
    s = x ++ s' /\ In q (run db r (last_of before x, s')).
Proof.
  revert i before; induction s as [|c s IH]; intros i before;
    cbn [search_from]; destruct (run db r (before, _)) as [|q l] eqn:E.
  - discriminate.
  - intros _. exists [], [], q. cbn [last_of]. rewrite E.
    split; [reflexivity | now left].
  - intros H. apply IH in H as (x & s' & q & -> & H).
    now exists (c :: x), s', q.
  - intros _. exists [], (c :: s), q. cbn [last_of]. rewrite E.
    split; [reflexivity | now left].
Qed.

(** [search] succeeds exactly when the pattern matches from some position
    of the text. *)
Theorem search_matches (r : regex) (text : pystr) :
  bounds_in_order r = true ->
  detects db r text = true <->
  exists (x s : pystr) q,
    text = x ++ s /\ matches db r (last_of None x, s) q.
Proof.
  intros Hwf. split.
  - intros H. apply search_from_inv in H as (x & s & q & -> & H).
    exists x, s, q. split; [reflexivity|]. now apply run_matches.
  - intros (x & s & q & -> & H). apply (search_at r x s q).
    now apply run_matches.
Qed.

Lemma ascii_digit_is_decimal (c : codepoint) :
  is_ascii_digit c = true -> Py_UNICODE_ISDECIMAL db c = true.
Proof.
  unfold is_ascii_digit, Py_UNICODE_ISDECIMAL, is_ascii. intros H.
  rewrite H. replace (c <? 128) with true; [reflexivity|].
  symmetry. apply N.ltb_lt. unfold between in H.
  apply andb_prop in H as [_ H9]. apply N.leb_le in H9.
  unfold ord in H9. simpl in H9. lia.
Qed.

Lemma digits_start_with_word (ds rest : pystr) :
  ds <> [] -> Forall (fun c => Py_UNICODE_ISDECIMAL db c = true) ds ->
  is_word db (head (ds ++ rest)) = true.
Proof.
  intros Hne H. destruct H as [|c ds Hc _]; [now destruct Hne|].
  now apply decimal_is_word.
Qed.

Lemma digits_end_with_word (before : option codepoint) (ds : pystr) :
  ds <> [] -> Forall (fun c => Py_UNICODE_ISDECIMAL db c = true) ds ->
  is_word db (last_of before ds) = true.
Proof.
  intros Hne H. revert before.
  induction H as [|c ds Hc Hds IH]; intros before; [now destruct Hne|].
  cbn [last_of]. destruct ds as [|d ds]; [now apply decimal_is_word|].
  now apply IH.
Qed.

(** One more item of a sequence is matched, up to the position [q]. *)
Ltac item mid := apply (fun r1 r2 p => run_seq r1 r2 p mid).

(** Three, three and four decimal digits in a row, with no word character
    on either side, are matched by the phone pattern: the country code, the
    parentheses and the separators are all left out. *)
Lemma phone_groups (x a b c y : pystr) :
  length a = 3%nat -> length b = 3%nat -> length c = 4%nat ->
  Forall (fun c => Py_UNICODE_ISDECIMAL db c = true) a ->
  Forall (fun c => Py_UNICODE_ISDECIMAL db c = true) b ->
  Forall (fun c => Py_UNICODE_ISDECIMAL db c = true) c ->
  is_word db (last_of None x) = false ->
  is_word db (head y) = false ->
  detects db phone_re (x ++ a ++ b ++ c ++ y) = true.
Proof.
  intros La Lb Lc Ha Hb Hc Hx Hy.
  set (p0 := (last_of None x, a ++ b ++ c ++ y)).
  set (p1 := (last_of (fst p0) a, b ++ c ++ y)).
  set (p2 := (last_of (fst p1) b, c ++ y)).
  set (p3 := (last_of (fst p2) c, y)).
  apply (search_at phone_re x _ p3). fold p0.
  unfold phone_re, seq_of, fold_right.
  item p0.
  { apply run_boundary. unfold at_boundary, next. cbn [p0 fst snd].
    rewrite Hx, digits_start_with_word; [reflexivity | | assumption].
    intros ->. discriminate La. }
  item p0; [apply run_opt_skip|].
  item p0; [apply run_opt_skip|].
  item p1; [now apply run_digits|].
  item p1; [apply run_opt_skip|].
  item p1; [apply run_opt_skip|].
  item p2; [now apply run_digits|].
  item p2; [apply run_opt_skip|].
  item p3; [now apply run_digits|].
  item p3; [|now left].
  apply run_boundary. unfold at_boundary, next. cbn [p3 fst snd].
  rewrite Hy, digits_end_with_word; [reflexivity | | assumption].
  intros ->. discriminate Lc.
Qed.

(** Ten decimal digits in a row are read as three, three and four. *)
Lemma phone_ten_digits (x ds y : pystr) :
  length ds = 10%nat ->
  Forall (fun c => Py_UNICODE_ISDECIMAL db c = true) ds ->
  is_word db (last_of None x) = false ->
  is_word db (head y) = false ->
  detects db phone_re (x ++ ds ++ y) = true.
Proof.
  intros Hlen Hds Hx Hy.
  rewrite <- (take_drop 3 ds), <- (take_drop 3 (drop 3 ds)).
  rewrite <- !app_assoc.
  apply phone_groups; try assumption;
    rewrite ?length_take, ?length_drop, ?Hlen; try reflexivity;
    auto using Forall_take, Forall_drop.
Qed.

End MatchingFacts.

(** ** The messages of the three passes cannot be confused *)

Lemma discriminatory_message_inj (p q : pystr) :
  discriminatory_message p = discriminatory_message q -> p = q.
Proof.
  unfold discriminatory_message. intros H.
  apply app_inv_head in H. now apply app_inv_tail in H.
Qed.

Lemma NoDup_map_filter {A B} (f : A -> B) (keep : A -> bool) (l : list A) :
  List.NoDup (List.map f l) -> List.NoDup (List.map f (List.filter keep l)).
Proof.
  induction l as [|a l IH]; cbn [List.map List.filter]; intros H.
  - constructor.
  - apply NoDup_cons_iff in H as [Ha Hl]. destruct (keep a); [|now apply IH].
    cbn [List.map]. apply NoDup_cons_iff. split; [|now apply IH].
    intros Hin. apply Ha. apply in_map_iff in Hin as (x & <- & Hx).
    apply in_map. now apply filter_In in Hx as [Hx _].
Qed.

Lemma BANNED_PATTERNS_NoDup : List.NoDup BANNED_PATTERNS.
Proof.
  apply NoDup_ListNoDup, (bool_decide_unpack _). vm_compute. reflexivity.
Qed.

Lemma unprofessional_words_NoDup : List.NoDup unprofessional_words.
Proof.
  apply NoDup_ListNoDup, (bool_decide_unpack _). vm_compute. reflexivity.
Qed.

Section Messages.

Variable db : ucd.

Lemma discriminatory_pass_tags (text : pystr) :
  Forall (fun m => is_discriminatory_entry m = true
                   /\ is_unprofessional_entry m = false)
    (discriminatory_pass db text).
Proof.
  unfold discriminatory_pass. apply List.Forall_forall. intros m Hm.
  apply in_map_iff in Hm as (p & <- & _). split.
  - apply startswith_app.
  - reflexivity.
Qed.

Lemma pii_pass_tags (text : pystr) :
  Forall (fun m => is_discriminatory_entry m = false
                   /\ is_unprofessional_entry m = false)
    (pii_pass db text).
Proof.
  unfold pii_pass.
  destruct (detects db email_re text), (detects db phone_re text),
    (detects db ssn_re text); repeat constructor.
Qed.

Lemma unprofessional_pass_tags (text : pystr) :
  Forall (fun m => is_discriminatory_entry m = false
                   /\ is_unprofessional_entry m = true)
    (unprofessional_pass db text).
Proof.
  unfold unprofessional_pass.
  destruct (matched_words db text); repeat constructor.
Qed.

Lemma discriminatory_pass_NoDup (text : pystr) :
  List.NoDup (discriminatory_pass db text).
Proof.
  unfold discriminatory_pass, matched_phrases. apply NoDup_map_filter.
  apply Finite.Injective_map_NoDup; [|apply BANNED_PATTERNS_NoDup].
  intros p q. apply discriminatory_message_inj.
Qed.

Lemma pii_pass_NoDup (text : pystr) : List.NoDup (pii_pass db text).
Proof.
  unfold pii_pass.
  destruct (detects db email_re text), (detects db phone_re text),
    (detects db ssn_re text);
    apply NoDup_ListNoDup, (bool_decide_unpack _); vm_compute; reflexivity.
Qed.

Lemma unprofessional_pass_short (text : pystr) :
  (length (unprofessional_pass db text) <= 1)%nat.
Proof.
  unfold unprofessional_pass. destruct (matched_words db text); simpl; lia.
Qed.

Lemma pii_pass_short (text : pystr) :
  (length (pii_pass db text) <= 3)%nat.
Proof.
  unfold pii_pass.
  destruct (detects db email_re text), (detects db phone_re text),
    (detects db ssn_re text); simpl; lia.
Qed.

Lemma discriminatory_pass_short (text : pystr) :
  (length (discriminatory_pass db text) <= 10)%nat.
Proof.
  unfold discriminatory_pass, matched_phrases. rewrite length_map.
  apply (filter_length_le _ BANNED_PATTERNS).
Qed.

Lemma three_passes_NoDup (text : pystr) : List.NoDup (three_passes db text).
Proof.
  pose proof (discriminatory_pass_tags text) as Hd.
  pose proof (pii_pass_tags text) as Hp.
  pose proof (unprofessional_pass_tags text) as Hu.
  rewrite List.Forall_forall in Hd, Hp, Hu.
  unfold three_passes. apply List.NoDup_app.
  - apply discriminatory_pass_NoDup.
  - apply List.NoDup_app.
    + apply pii_pass_NoDup.
    + pose proof (unprofessional_pass_short text) as Hlen.
      destruct (unprofessional_pass db text) as [|m [|? ?]];
        [constructor | | simpl in Hlen; lia].
      constructor; [intros [] | constructor].
    + intros m H1 H2. apply Hp in H1 as [_ H1]. apply Hu in H2 as [_ H2].
      congruence.
  - intros m H1 H2. apply Hd in H1 as [H1 _].
    apply in_app_or in H2 as [H2|H2];
      [apply Hp in H2 as [H2 _] | apply Hu in H2 as [H2 _]]; congruence.
Qed.

End Messages.

Section Contract.

Variable db : ucd.

(** C1. The output of the checker is the concatenation of three passes,
    in this order: one entry per banned phrase found in the lower-cased
    text, in the order of the table; then the PII entries in the order of
    the PII table (email, phone, ssn), each present exactly when its
    pattern matches the text; then no entry or one combined entry for
    unprofessional language. Every pass contributes whatever the other
    passes found. *)
Theorem policy_check_three_passes (text : pystr) (cache : re_cache) :
  cache_ok cache ->
  fst (policy_check db text cache)
  = Ok (discriminatory_pass db text ++ pii_pass db text ++
        unprofessional_pass db text)
  /\ discriminatory_pass db text
     = List.map discriminatory_message
         (List.filter (contains (str_lower db text)) BANNED_PATTERNS)
  /\ pii_pass db text
     = List.map (fun e => py "PII detected: " ++ fst e)
         (List.filter
            (fun e => match sre_compile (snd e) with
                      | Ok r => is_some (search db r text)
                      | Raise _ => false
                      end)
            PII_PATTERNS)
  /\ List.map fst PII_PATTERNS = [py "email"; py "phone"; py "ssn"]
  /\ (unprofessional_pass db text = [] \/
      exists m, unprofessional_pass db text = [m]).
Proof.
  intros Hc. destruct (policy_check_run db text cache Hc) as (c' & -> & _).
  repeat split.
  - unfold pii_pass, PII_PATTERNS, List.filter, detects, pii_message.
    cbn [snd]. rewrite compile_email, compile_phone, compile_ssn.
    destruct (is_some (search db email_re text)),
             (is_some (search db phone_re text)),
             (is_some (search db ssn_re text)); reflexivity.
  - unfold unprofessional_pass. destruct (matched_words db text); eauto.
Qed.

(** C2. The lenient route answers from the list the checker returns: a
    non-empty list gives status VIOLATION, [is_valid] false, no validated
    text and that list; the empty list gives status OK, [is_valid] true,
    the text as validated text and no violations. So [is_valid] holds
    exactly when the checker's list is empty. *)
Theorem validate_text_response (t : pystr) (cache : re_cache) :
  cache_ok cache ->
  exists vs resp,
    fst (policy_check db t cache) = Ok vs
    /\ fst (validate_text db {| text := t |} cache) = Ok resp
    /\ (is_valid resp = true <-> vs = [])
    /\ (vs <> [] ->
        resp = {| status := py "VIOLATION"; is_valid := false;
                  validated_text := None; violations := Some vs |})
    /\ (vs = [] ->
        resp = {| status := py "OK"; is_valid := true;
                  validated_text := Some t; violations := None |}).
Proof.
  intros Hc. unfold validate_text, bind. cbn [text].
  destruct (policy_check_run db t cache Hc) as (c' & -> & _).
  destruct (three_passes db t) as [|v vs]; cbn [nonempty fst ret];
    eexists _, _; (split; [reflexivity|]); (split; [reflexivity|]);
    cbn [is_valid]; repeat split; congruence.
Qed.

(** C3. The checker is total: on every text, from every cache in good
    order (the empty cache of a fresh process is one), it returns a list
    of violations and raises nothing. *)
Theorem policy_check_total (text : pystr) (cache : re_cache) :
  cache_ok cache ->
  exists vs cache', policy_check db text cache = (Ok vs, cache').
Proof.
  intros Hc. destruct (policy_check_run db text cache Hc) as (c' & H & _).
  eauto.
Qed.

(** C4. The strict route: when [text] is missing from the payload or is
    not a string, it raises the client error with the detail
    "Field 'text' must be a string." and the checker does not run (the
    cache is untouched); when [text] is a string, it raises the client
    error that carries POLICY_VIOLATION and exactly the checker's list if
    that list is non-empty, and returns status OK with the text if the
    list is empty. *)
Theorem validate_text_strict_cases (payload : gmap pystr json)
  (cache : re_cache) :
  cache_ok cache ->
  ((payload !! py "text" = None \/
    exists v, payload !! py "text" = Some v /\ forall s, v <> JStr s) ->
   validate_text_strict db payload cache
   = (Raise (HTTPException 400
               (JStr (py "Field 'text' must be a string."))), cache))
  /\ (forall t, payload !! py "text" = Some (JStr t) ->
      exists vs,
        fst (policy_check db t cache) = Ok vs
        /\ (vs <> [] ->
            fst (validate_text_strict db payload cache)
            = Raise (HTTPException 400
                       (JDict {[ py "error" := JStr (py "POLICY_VIOLATION");
                                 py "violations" := JList (JStr <$> vs) ]})))
        /\ (vs = [] ->
            fst (validate_text_strict db payload cache)
            = Ok {[ py "status" := JStr (py "OK");
                    py "validated_text" := JStr t ]})).
Proof.
  intros Hc. split.
  - intros H. unfold validate_text_strict, dict_get.
    destruct H as [-> | (v & -> & Hv)]; [reflexivity|].
    destruct v; try reflexivity. now destruct (Hv s).
  - intros t Ht. unfold validate_text_strict, dict_get.
    rewrite Ht. cbn [from_option id]. unfold bind.
    destruct (policy_check_run db t cache Hc) as (c' & -> & _).
    exists (three_passes db t). split; [reflexivity|].
    destruct (three_passes db t); cbn [nonempty]; split; intros H;
      first [reflexivity | discriminate H | now destruct H].
Qed.

(** C8. The checker is deterministic: what it returns does not depend on
    the state of the pattern cache, and two calls in a row on the same
    text return the same list. *)
Theorem policy_check_deterministic (text : pystr) (c1 c2 : re_cache) :
  cache_ok c1 -> cache_ok c2 ->
  fst (policy_check db text c1) = fst (policy_check db text c2)
  /\ exists vs, fst (twice (policy_check db text) c1) = Ok (vs, vs).
Proof.
  intros H1 H2. unfold twice, bind.
  destruct (policy_check_run db text c1 H1) as (c1' & -> & H1').
  destruct (policy_check_run db text c2 H2) as (c2' & -> & _).
  destruct (policy_check_run db text c1' H1') as (c1'' & -> & _).
  split; [reflexivity|]. now exists (three_passes db text).
Qed.

(** C5. The discriminatory pass tests every entry of the table against
    the lower-cased text and stops at none: the checker's list starts with
    one entry "Discriminatory reasoning detected: '<phrase>'" for each
    banned phrase found, in the order of the table, and has no such entry
    after them. In particular a text that contains "because you are a
    woman" and "because of your age", in any case or in lower case as
    written, yields the two entries, the first before the second. *)
Theorem discriminatory_every_phrase (text : pystr) (cache : re_cache) :
  cache_ok cache ->
  exists vs rest,
    fst (policy_check db text cache) = Ok vs
    /\ vs = List.map
              (fun phrase =>
                 py "Discriminatory reasoning detected: '" ++ phrase ++ py "'")
              (List.filter (contains (str_lower db text)) BANNED_PATTERNS)
            ++ rest
    /\ Forall (fun m => is_discriminatory_entry m = false) rest
    /\ ((contains (str_lower db text) (py "because you are a woman") = true
         /\ contains (str_lower db text) (py "because of your age") = true)
        \/ (contains text (py "because you are a woman") = true
            /\ contains text (py "because of your age") = true) ->
        exists l2 l3,
          vs = [py "Discriminatory reasoning detected: 'because you are a woman'"]
               ++ l2 ++
               [py "Discriminatory reasoning detected: 'because of your age'"]
               ++ l3).
Proof.
  intros Hc. destruct (policy_check_run db text cache Hc) as (c' & -> & _).
  exists (three_passes db text),
         (pii_pass db text ++ unprofessional_pass db text).
  split; [reflexivity|]. split; [reflexivity|]. split.
  - pose proof (pii_pass_tags db text) as Hp.
    pose proof (unprofessional_pass_tags db text) as Hu.
    apply Forall_app; split; eapply List.Forall_impl; try eassumption;
      now intros m [H _].
  - intros H.
    assert (contains (str_lower db text) (py "because you are a woman") = true
            /\ contains (str_lower db text) (py "because of your age") = true)
      as [Hw Ha].
    { destruct H as [H|[Hw Ha]]; [exact H|].
      split; apply contains_lower; (reflexivity || assumption). }
    unfold three_passes, discriminatory_pass, matched_phrases.
    change BANNED_PATTERNS
      with ([py "because you are a woman"] ++
            [py "because you are a man"; py "because you are muslim";
             py "because you are christian"; py "because of your ethnicity";
             py "because of your race"; py "because of your gender"] ++
            [py "because of your age"] ++
            [py "because of your disability"; py "due to your religion"]).
    apply (kept_in_order discriminatory_message); assumption.
Qed.

(** C6. When at least one of the words stupid, dumb, idiot, useless occurs
    in the lower-cased text, the checker's list ends with one combined
    entry that lists the words found, each once, in the order of the
    table, separated by a comma and a space, and no other entry is an
    unprofessional-language entry. The text "That was a stupid and dumb
    idea" yields exactly the one entry "Unprofessional language: stupid,
    dumb". *)
Theorem unprofessional_one_entry (text : pystr) (cache : re_cache) :
  cache_ok cache ->
  let words :=
    List.filter (contains (str_lower db text)) unprofessional_words in
  unprofessional_words = [py "stupid"; py "dumb"; py "idiot"; py "useless"]
  /\ List.NoDup words
  /\ ((exists w, In w unprofessional_words
                 /\ contains (str_lower db text) w = true) ->
      exists front,
        fst (policy_check db text cache)
        = Ok (front ++
              [py "Unprofessional language: " ++ join (py ", ") words])
        /\ Forall (fun m => is_unprofessional_entry m = false) front)
  /\ fst (policy_check db (py "That was a stupid and dumb idea") cache)
     = Ok [py "Unprofessional language: stupid, dumb"].
Proof.
  intros Hc words. split; [reflexivity|]. split.
  { apply List.NoDup_filter, unprofessional_words_NoDup. }
  split.
  - intros (w & Hw & Hin).
    destruct (policy_check_run db text cache Hc) as (c' & -> & _).
    exists (discriminatory_pass db text ++ pii_pass db text). split.
    + cbn [fst]. f_equal. unfold three_passes. rewrite <- app_assoc.
      do 2 f_equal. unfold unprofessional_pass, matched_words.
      fold words. destruct words eqn:E; [|reflexivity].
      assert (In w words) as Hf by (apply filter_In; auto).
      rewrite E in Hf. destruct Hf.
    + pose proof (discriminatory_pass_tags db text) as Hd.
      pose proof (pii_pass_tags db text) as Hp.
      apply Forall_app; split; eapply List.Forall_impl; try eassumption;
        now intros m [_ H].
  - destruct (policy_check_run db (py "That was a stupid and dumb idea")
                cache Hc) as (c' & -> & _).
    vm_compute. reflexivity.
Qed.

(** C7. On the empty string, and on every text whose lower-cased form
    contains no banned phrase and no unprofessional word and in which no
    pattern of the PII table matches, the checker returns the empty list
    and the lenient route answers [is_valid] true. *)
Theorem clean_text_is_valid (cache : re_cache) :
  cache_ok cache ->
  (fst (policy_check db [] cache) = Ok []
   /\ exists resp, fst (validate_text db {| text := [] |} cache) = Ok resp
                   /\ is_valid resp = true)
  /\ forall t,
      (forall p, In p BANNED_PATTERNS ->
                 contains (str_lower db t) p = false) ->
      (forall kind pattern r, In (kind, pattern) PII_PATTERNS ->
                              sre_compile pattern = Ok r ->
                              search db r t = None) ->
      (forall w, In w unprofessional_words ->
                 contains (str_lower db t) w = false) ->
      fst (policy_check db t cache) = Ok []
      /\ exists resp, fst (validate_text db {| text := t |} cache) = Ok resp
                      /\ is_valid resp = true.
Proof.
  intros Hc.
  assert (forall t, three_passes db t = [] ->
            fst (policy_check db t cache) = Ok []
            /\ exists resp,
                fst (validate_text db {| text := t |} cache) = Ok resp
                /\ is_valid resp = true) as Hclean.
  { intros t Ht. unfold validate_text, bind. cbn [text].
    destruct (policy_check_run db t cache Hc) as (c' & -> & _).
    rewrite Ht. split; [reflexivity|]. eexists; split; reflexivity. }
  split.
  - apply Hclean. vm_compute. reflexivity.
  - intros t Hb Hp Hw. apply Hclean.
    unfold three_passes, discriminatory_pass, pii_pass, unprofessional_pass,
      matched_phrases, matched_words, detects.
    rewrite (Hp (py "email") _ _ ltac:(left; reflexivity) compile_email).
    rewrite (Hp (py "phone") _ _ ltac:(right; left; reflexivity)
               compile_phone).
    rewrite (Hp (py "ssn") _ _ ltac:(right; right; left; reflexivity)
               compile_ssn).
    assert (forall l : list pystr,
              (forall x, In x l -> contains (str_lower db t) x = false) ->
              List.filter (contains (str_lower db t)) l = []) as Hnone.
    { induction l as [|x l IH]; intros H; [reflexivity|].
      cbn [List.filter]. rewrite (H x) by now left.
      apply IH. intros y Hy. apply H. now right. }
    rewrite (Hnone _ Hb), (Hnone _ Hw). reflexivity.
Qed.

(** C9. The checker's list has at most 14 entries (at most 10 from the
    banned phrases, 3 from the PII kinds and 1 for unprofessional
    language), and no entry occurs twice. *)
Theorem violations_bounded_distinct (text : pystr) (cache : re_cache) :
  cache_ok cache ->
  exists vs,
    fst (policy_check db text cache) = Ok vs
    /\ (length vs <= 14)%nat
    /\ List.NoDup vs
    /\ (length (discriminatory_pass db text) <= 10)%nat
    /\ (length (pii_pass db text) <= 3)%nat
    /\ (length (unprofessional_pass db text) <= 1)%nat.
Proof.
  intros Hc. destruct (policy_check_run db text cache Hc) as (c' & -> & _).
  exists (three_passes db text).
  pose proof (discriminatory_pass_short db text).
  pose proof (pii_pass_short db text).
  pose proof (unprofessional_pass_short db text).
  split; [reflexivity|]. split; [|split; [apply three_passes_NoDup|auto]].
  unfold three_passes. rewrite !length_app. lia.
Qed.

(** C10. A text in which ten decimal digits in a row have no word
    character (letter, digit or underscore) next to them on either side is
    reported as phone PII, and the text "1234567890" yields exactly the
    one entry "PII detected: phone". *)
Theorem ten_digits_are_phone (before ds after : pystr) (cache : re_cache) :
  cache_ok cache ->
  length ds = 10%nat ->
  Forall (fun c => Py_UNICODE_ISDECIMAL db c = true) ds ->
  is_word db (last_of None before) = false ->
  is_word db (head after) = false ->
  (exists vs,
      fst (policy_check db (before ++ ds ++ after) cache) = Ok vs
      /\ In (py "PII detected: phone") vs)
  /\ fst (policy_check db (py "1234567890") cache)
     = Ok [py "PII detected: phone"].
Proof.
  intros Hc Hlen Hds Hb Ha. split.
  - destruct (policy_check_run db (before ++ ds ++ after) cache Hc)
      as (c' & -> & _).
    eexists; split; [reflexivity|].
    unfold three_passes, pii_pass.
    rewrite (phone_ten_digits db before ds after Hlen Hds Hb Ha).
    apply in_or_app; right. apply in_or_app; left.
    apply in_or_app; right. apply in_or_app; left. now left.
  - destruct (policy_check_run db (py "1234567890") cache Hc)
      as (c' & -> & _).
    vm_compute. reflexivity.
Qed.

End Contract.

(** ** The theorems at work

    Each theorem is applied at [sample_ucd] to a concrete text and a
    concrete cache. *)

Lemma policy_check_three_passes_witness :
  cache_ok []
  /\ fst (policy_check sample_ucd
            (py "You are useless because of your age, write to a@b.org") [])
     = Ok [py "Discriminatory reasoning detected: 'because of your age'";
           py "PII detected: email";
           py "Unprofessional language: useless"].
Proof.
  split; [exact cache_ok_nil|].
  rewrite (proj1 (policy_check_three_passes sample_ucd _ [] cache_ok_nil)).
  vm_compute. reflexivity.
Defined.

Lemma validate_text_response_witness :
  cache_ok []
  /\ exists vs resp,
      fst (policy_check sample_ucd (py "My SSN is 123-45-6789") []) = Ok vs
      /\ fst (validate_text sample_ucd
                {| text := py "My SSN is 123-45-6789" |} []) = Ok resp
      /\ (is_valid resp = true <-> vs = []).
Proof.
  split; [exact cache_ok_nil|].
  destruct (validate_text_response sample_ucd (py "My SSN is 123-45-6789") []
              cache_ok_nil) as (vs & resp & H1 & H2 & H3 & _).
  exists vs, resp. auto.
Defined.

Lemma policy_check_total_witness :
  cache_ok []
  /\ exists vs cache',
      policy_check sample_ucd [0; 233; 8364; 128169; 64; 49] []
      = (Ok vs, cache').
Proof.
  split; [exact cache_ok_nil|].
  exact (policy_check_total sample_ucd [0; 233; 8364; 128169; 64; 49] []
           cache_ok_nil).
Defined.

Lemma validate_text_strict_cases_witness :
  cache_ok []
  /\ validate_text_strict sample_ucd {[ py "text" := JInt 5 ]} []
     = (Raise (HTTPException 400
                 (JStr (py "Field 'text' must be a string."))), []).
Proof.
  split; [exact cache_ok_nil|].
  apply (proj1 (validate_text_strict_cases sample_ucd
                  {[ py "text" := JInt 5 ]} [] cache_ok_nil)).
  right. exists (JInt 5). split; [vm_compute; reflexivity | discriminate].
Defined.

Lemma discriminatory_every_phrase_witness :
  cache_ok []
  /\ exists vs l2 l3,
      fst (policy_check sample_ucd
             (py "No, because of your AGE and because you are a woman.") [])
      = Ok vs
      /\ vs = [py "Discriminatory reasoning detected: 'because you are a woman'"]
              ++ l2 ++
              [py "Discriminatory reasoning detected: 'because of your age'"]
              ++ l3.
Proof.
  split; [exact cache_ok_nil|].
  destruct (discriminatory_every_phrase sample_ucd
              (py "No, because of your AGE and because you are a woman.") []
              cache_ok_nil) as (vs & rest & H1 & _ & _ & H4).
  destruct H4 as (l2 & l3 & H4).
  { left. split; vm_compute; reflexivity. }
  exists vs, l2, l3. auto.
Defined.

Lemma unprofessional_one_entry_witness :
  cache_ok []
  /\ exists front,
      fst (policy_check sample_ucd (py "Useless IDIOT, call 555-123-4567") [])
      = Ok (front ++ [py "Unprofessional language: idiot, useless"]).
Proof.
  split; [exact cache_ok_nil|].
  destruct (unprofessional_one_entry sample_ucd
              (py "Useless IDIOT, call 555-123-4567") [] cache_ok_nil)
    as (_ & _ & H & _).
  destruct H as (front & H & _).
  { exists (py "idiot"). split; vm_compute; [tauto | reflexivity]. }
  exists front. exact H.
Defined.

Lemma clean_text_is_valid_witness :
  cache_ok []
  /\ fst (policy_check sample_ucd (py "Thank you for applying.") []) = Ok [].
Proof.
  split; [exact cache_ok_nil|].
  apply (proj2 (clean_text_is_valid sample_ucd [] cache_ok_nil)).
  - intros p Hp. repeat (destruct Hp as [<-|Hp]; [vm_compute; reflexivity|]).
    destruct Hp.
  - intros kind pattern r Hin Hr.
    repeat (destruct Hin as [Hin|Hin];
            [injection Hin as <- <-; vm_compute in Hr; injection Hr as <-;
             vm_compute; reflexivity|]).
    destruct Hin.
  - intros w Hw. repeat (destruct Hw as [<-|Hw]; [vm_compute; reflexivity|]).
    destruct Hw.
Defined.

Lemma policy_check_deterministic_witness :
  cache_ok [] /\ cache_ok [(py "\b\d{3}-\d{2}-\d{4}\b", ssn_re)]
  /\ fst (policy_check sample_ucd (py "123-45-6789") [])
     = fst (policy_check sample_ucd (py "123-45-6789")
              [(py "\b\d{3}-\d{2}-\d{4}\b", ssn_re)]).
Proof.
  assert (cache_ok [(py "\b\d{3}-\d{2}-\d{4}\b", ssn_re)]) as H.
  { constructor; [vm_compute; reflexivity | constructor]. }
  split; [exact cache_ok_nil|]. split; [exact H|].
  exact (proj1 (policy_check_deterministic sample_ucd (py "123-45-6789") [] _
                  cache_ok_nil H)).
Defined.

Lemma violations_bounded_distinct_witness :
  cache_ok []
  /\ exists vs,
      fst (policy_check sample_ucd (py "dumb and dumber, because of your race")
             []) = Ok vs
      /\ (length vs <= 14)%nat /\ List.NoDup vs.
Proof.
  split; [exact cache_ok_nil|].
  destruct (violations_bounded_distinct sample_ucd
              (py "dumb and dumber, because of your race") [] cache_ok_nil)
    as (vs & H1 & H2 & H3 & _).
  exists vs. auto.
Defined.

Lemma ten_digits_are_phone_witness :
  cache_ok []
  /\ length [1632; 1633; 1634; 1635; 1636; 1637; 1638; 1639; 1640; 1641]
     = 10%nat
  /\ Forall (fun c => Py_UNICODE_ISDECIMAL sample_ucd c = true)
       [1632; 1633; 1634; 1635; 1636; 1637; 1638; 1639; 1640; 1641]
  /\ is_word sample_ucd (last_of None (py "Call ")) = false
  /\ is_word sample_ucd (head (py ", please")) = false
  /\ exists vs,
      fst (policy_check sample_ucd
             (py "Call " ++
              [1632; 1633; 1634; 1635; 1636; 1637; 1638; 1639; 1640; 1641] ++
              py ", please") []) = Ok vs
      /\ In (py "PII detected: phone") vs.
Proof.
  assert (Forall (fun c => Py_UNICODE_ISDECIMAL sample_ucd c = true)
            [1632; 1633; 1634; 1635; 1636; 1637; 1638; 1639; 1640; 1641])
    as Hds by (repeat constructor).
  split; [exact cache_ok_nil|]. split; [reflexivity|]. split; [exact Hds|].
  split; [reflexivity|]. split; [reflexivity|].
  exact (proj1 (ten_digits_are_phone sample_ucd (py "Call ")
                  [1632; 1633; 1634; 1635; 1636; 1637; 1638; 1639; 1640; 1641]
                  (py ", please") [] cache_ok_nil eq_refl Hds eq_refl eq_refl)).
Defined.

(** * Further properties *)

(** ** Matches, piece by piece *)

Lemma last_of_app (before : option codepoint) (u v : pystr) :
  last_of before (u ++ v) = last_of (last_of before u) v.
Proof.
  revert before; induction u as [|c u IH]; intros before; [reflexivity|].
  apply IH.
Qed.

Lemma last_of_nonempty (b1 b2 : option codepoint) (u : pystr) :
  u <> [] -> last_of b1 u = last_of b2 u.
Proof.
  destruct u as [|c u]; [now intros []|]. reflexivity.
Qed.

Section Pieces.

Variable db : ucd.

(** Repeating a one-character set [k] times reads [k] code points of the
    set. *)
Lemma power_set (negate : bool) (items : list set_item) (k : nat)
  (b : option codepoint) (s : pystr) (q : pos) :
  power (matches db (In_ negate items)) k (b, s) q <->
  exists cs rest : pystr,
    length cs = k
    /\ Forall (fun c => charset db negate items c = true) cs
    /\ s = cs ++ rest /\ q = (last_of b cs, rest).
Proof.
  revert b s; induction k as [|k IH]; intros b s; cbn [power].
  - split.
    + intros ->. now exists [], s.
    + intros (cs & rest & Hlen & _ & -> & ->).
      destruct cs; [reflexivity | discriminate Hlen].
  - split.
    + intros (m & (c & after & Hs & Hc & ->) & H). cbn [snd] in Hs. subst s.
      apply IH in H as (cs & rest & <- & Hcs & -> & ->).
      exists (c :: cs), rest. repeat split. now constructor.
    + intros (cs & rest & Hlen & Hcs & -> & ->).
      destruct cs as [|c cs]; [discriminate Hlen|].
      apply Forall_cons_iff in Hcs as [Hc Hcs].
      exists (Some c, cs ++ rest). split.
      * now exists c, (cs ++ rest).
      * apply IH. exists cs, rest. repeat split; [|assumption].
        now injection Hlen.
Qed.

Lemma matches_repeat_set (min : nat) (max : option nat) (negate : bool)
  (items : list set_item) (b : option codepoint) (s : pystr) (q : pos) :
  matches db (Max_repeat min max (In_ negate items)) (b, s) q <->
  exists cs rest : pystr,
    (min <= length cs)%nat
    /\ (forall m, max = Some m -> (length cs <= m)%nat)
    /\ Forall (fun c => charset db negate items c = true) cs
    /\ s = cs ++ rest /\ q = (last_of b cs, rest).
Proof.
  cbn [matches]. split.
  - intros (k & Hmin & Hmax & H).
    apply power_set in H as (cs & rest & <- & Hcs & -> & ->).
    now exists cs, rest.
  - intros (cs & rest & Hmin & Hmax & Hcs & -> & ->).
    exists (length cs). repeat split; [assumption.. |].
    apply power_set. now exists cs, rest.
Qed.

Lemma charset_digit (c : codepoint) :
  charset db false [SCategory false CATEGORY_DIGIT] c
  = Py_UNICODE_ISDECIMAL db c.
Proof. unfold charset. cbn. apply orb_false_r. Qed.

Lemma charset_separator (c : codepoint) :
  charset db false [SLiteral (ord "-"); SLiteral (ord ".");
                    SCategory false CATEGORY_SPACE] c
  = is_separator db c.
Proof.
  unfold charset, is_separator. cbn [existsb in_item in_category xorb].
  now rewrite orb_false_r, orb_assoc.
Qed.

(** [\d{n}] reads exactly [n] decimal digits. *)
Lemma matches_digits (n : nat) (b : option codepoint) (s : pystr) (q : pos) :
  matches db (exactly n digit) (b, s) q <->
  exists ds rest : pystr,
    decimal_digits db n ds /\ s = ds ++ rest /\ q = (last_of b ds, rest).
Proof.
  unfold exactly, digit, decimal_digits. rewrite matches_repeat_set. split.
  - intros (cs & rest & Hmin & Hmax & Hcs & -> & ->).
    specialize (Hmax n eq_refl). exists cs, rest.
    repeat split; [lia|].
    eapply List.Forall_impl; [|exact Hcs].
    intros c Hc. cbn beta in *. now rewrite charset_digit in Hc.
  - intros (ds & rest & [Hlen Hds] & -> & ->). exists ds, rest.
    repeat split; [lia | intros m [= <-]; lia |].
    eapply List.Forall_impl; [|exact Hds].
    intros c Hc. cbn beta in *. now rewrite charset_digit.
Qed.

(** An optional item is matched or passed over. *)
Lemma matches_opt (r : regex) (p q : pos) :
  matches db (opt r) p q <-> q = p \/ matches db r p q.
Proof.
  unfold opt. cbn [matches]. split.
  - intros (k & _ & Hmax & H). specialize (Hmax 1%nat eq_refl).
    destruct k as [|[|k]]; [| |lia]; cbn [power] in H.
    + now left.
    + destruct H as (m & H & ->). now right.
  - intros [->|H].
    + exists 0%nat. repeat split; [lia | intros m [= <-]; lia].
    + exists 1%nat. repeat split; [lia | intros m [= <-]; lia|].
      now exists q.
Qed.

(** An optional literal or one-character set reads nothing or one code
    point. *)
Lemma matches_opt_literal (c : codepoint) (b : option codepoint) (s : pystr)
  (q : pos) :
  matches db (opt (Literal c)) (b, s) q <->
  exists u rest : pystr,
    optional (N.eqb c) u /\ s = u ++ rest /\ q = (last_of b u, rest).
Proof.
  rewrite matches_opt. cbn [matches snd]. split.
  - intros [->|(after & -> & ->)].
    + exists [], s. repeat split. now left.
    + exists [c], after. repeat split. right. exists c.
      split; [reflexivity | apply N.eqb_refl].
  - intros (u & rest & [->|(c' & -> & Hc)] & -> & ->).
    + now left.
    + apply N.eqb_eq in Hc as <-. right. now exists rest.
Qed.

Lemma matches_separator (b : option codepoint) (s : pystr) (q : pos) :
  matches db separator (b, s) q <->
  exists u rest : pystr,
    optional (is_separator db) u /\ s = u ++ rest /\ q = (last_of b u, rest).
Proof.
  unfold separator. rewrite matches_opt. cbn [matches snd]. split.
  - intros [->|(c & after & -> & Hc & ->)].
    + exists [], s. repeat split. now left.
    + exists [c], after. repeat split. right. exists c.
      split; [reflexivity | now rewrite <- charset_separator].
  - intros (u & rest & [->|(c & -> & Hc)] & -> & ->).
    + now left.
    + right. exists c, rest. repeat split. now rewrite charset_separator.
Qed.

End Pieces.

(** ** What each PII pattern detects *)

(** Split a conjunction into its parts, leaving other goals alone. *)
Ltac conjs := repeat match goal with |- _ /\ _ => split end.

Lemma xorb_true_word (x : bool) : xorb x true = true -> x = false.
Proof. now destruct x. Qed.

Lemma xorb_word_true (x : bool) : xorb true x = true -> x = false.
Proof. now destruct x. Qed.

Lemma decimal_digits_nonempty (db : ucd) (n : nat) (ds : pystr) :
  decimal_digits db (S n) ds -> ds <> [].
Proof. intros [Hlen _] ->. discriminate Hlen. Qed.

Section Detectors.

Variable db : ucd.

Lemma charset_local (c : codepoint) :
  charset db false
    [SRange (ord "A") (ord "Z"); SRange (ord "a") (ord "z");
     SRange (ord "0") (ord "9"); SLiteral (ord "."); SLiteral (ord "_");
     SLiteral (ord "%"); SLiteral (ord "+"); SLiteral (ord "-")] c
  = is_local_char c.
Proof.
  unfold charset, is_local_char, is_ascii_letter, is_ascii_digit.
  cbn [existsb in_item xorb]. now rewrite orb_false_r, !orb_assoc.
Qed.

Lemma charset_domain (c : codepoint) :
  charset db false
    [SRange (ord "A") (ord "Z"); SRange (ord "a") (ord "z");
     SRange (ord "0") (ord "9"); SLiteral (ord "."); SLiteral (ord "-")] c
  = is_domain_char c.
Proof.
  unfold charset, is_domain_char, is_ascii_letter, is_ascii_digit.
  cbn [existsb in_item xorb]. now rewrite orb_false_r, !orb_assoc.
Qed.

Lemma charset_tld (c : codepoint) :
  charset db false
    [SRange (ord "A") (ord "Z"); SLiteral (ord "|");
     SRange (ord "a") (ord "z")] c
  = is_tld_char c.
Proof.
  unfold charset, is_tld_char, is_ascii_letter.
  cbn [existsb in_item xorb]. rewrite orb_false_r.
  destruct (between (ord "A") (ord "Z") c), (c =? ord "|"),
    (between (ord "a") (ord "z") c); reflexivity.
Qed.

Lemma Forall_charset (ok ok' : codepoint -> bool) (cs : pystr) :
  (forall c, ok c = ok' c) ->
  Forall (fun c => ok c = true) cs <-> Forall (fun c => ok' c = true) cs.
Proof.
  intros H. split; intros Hcs; eapply List.Forall_impl; try exact Hcs;
    intros c Hc; cbn beta in *; [now rewrite <- H | now rewrite H].
Qed.

(** The SSN pattern matches from a position exactly when three, two and
    four decimal digits follow, joined by hyphens, with no word character
    before or after. *)
Lemma matches_ssn (b : option codepoint) (s : pystr) :
  (exists q, matches db ssn_re (b, s) q) <->
  exists a1 a2 a3 y : pystr,
    s = a1 ++ py "-" ++ a2 ++ py "-" ++ a3 ++ y
    /\ decimal_digits db 3 a1 /\ decimal_digits db 2 a2
    /\ decimal_digits db 4 a3
    /\ is_word db b = false /\ is_word db (head y) = false.
Proof.
  unfold ssn_re, seq_of, fold_right. cbn [matches]. split.
  - intros (q & m1 & [B0 ->] & m2 & H1 & m3 & (r3 & E3 & ->) & m4 & H2 & m5
            & (r5 & E5 & ->) & m6 & H3 & m7 & [B1 ->] & _).
    apply matches_digits in H1 as (a1 & r1 & D1 & -> & ->).
    cbn [snd] in E3. subst r1.
    apply matches_digits in H2 as (a2 & r2 & D2 & -> & ->).
    cbn [snd] in E5. subst r2.
    apply matches_digits in H3 as (a3 & y & D3 & -> & ->).
    exists a1, a2, a3, y. conjs; try assumption; try reflexivity.
    + unfold at_boundary, next in B0. cbn [fst snd] in B0.
      rewrite digits_start_with_word in B0;
        [now apply xorb_true_word | eapply decimal_digits_nonempty, D1
        | apply D1].
    + unfold at_boundary, next in B1. cbn [fst snd] in B1.
      rewrite digits_end_with_word in B1;
        [now apply xorb_word_true | eapply decimal_digits_nonempty, D3
        | apply D3].
  - intros (a1 & a2 & a3 & y & -> & D1 & D2 & D3 & B0 & B1).
    exists (last_of (Some (ord "-")) a3, y).
    exists (b, a1 ++ py "-" ++ a2 ++ py "-" ++ a3 ++ y). split.
    { split; [|reflexivity]. unfold at_boundary, next. cbn [fst snd].
      rewrite B0, digits_start_with_word;
        [reflexivity | eapply decimal_digits_nonempty, D1 | apply D1]. }
    exists (last_of b a1, py "-" ++ a2 ++ py "-" ++ a3 ++ y). split.
    { apply matches_digits. now exists a1, (py "-" ++ a2 ++ py "-" ++ a3 ++ y). }
    exists (Some (ord "-"), a2 ++ py "-" ++ a3 ++ y). split.
    { now exists (a2 ++ py "-" ++ a3 ++ y). }
    exists (last_of (Some (ord "-")) a2, py "-" ++ a3 ++ y). split.
    { apply matches_digits. now exists a2, (py "-" ++ a3 ++ y). }
    exists (Some (ord "-"), a3 ++ y). split.
    { now exists (a3 ++ y). }
    exists (last_of (Some (ord "-")) a3, y). split.
    { apply matches_digits. now exists a3, y. }
    exists (last_of (Some (ord "-")) a3, y). split; [|reflexivity].
    split; [|reflexivity]. unfold at_boundary, next. cbn [fst snd].
    rewrite B1, digits_end_with_word;
      [reflexivity | eapply decimal_digits_nonempty, D3 | apply D3].
Qed.

(** The email pattern matches from a position exactly when a local part,
    an at sign, a domain, a dot and a top-level part of two or more
    characters follow, each from its set, with a word boundary at both
    ends. *)
Lemma matches_email (b : option codepoint) (s : pystr) :
  (exists q, matches db email_re (b, s) q) <->
  exists local domain tld y : pystr,
    s = local ++ py "@" ++ domain ++ py "." ++ tld ++ y
    /\ local <> [] /\ Forall (fun c => is_local_char c = true) local
    /\ domain <> [] /\ Forall (fun c => is_domain_char c = true) domain
    /\ (2 <= length tld)%nat /\ Forall (fun c => is_tld_char c = true) tld
    /\ at_boundary db (b, s) = true
    /\ at_boundary db (last_of None tld, y) = true.
Proof.
  unfold email_re, seq_of, fold_right. cbn [matches]. split.
  - intros (q & m1 & [B0 ->] & m2 & H1 & m3 & (r3 & E3 & ->) & m4 & H2 & m5
            & (r5 & E5 & ->) & m6 & H3 & m7 & [B1 ->] & _).
    apply (matches_repeat_set db 1 None) in H1
      as (local & r1 & L1 & _ & C1 & -> & ->).
    cbn [snd] in E3. subst r1.
    apply (matches_repeat_set db 1 None) in H2
      as (domain & r2 & L2 & _ & C2 & -> & ->).
    cbn [snd] in E5. subst r2.
    apply (matches_repeat_set db 2 None) in H3
      as (tld & y & L3 & _ & C3 & -> & ->).
    exists local, domain, tld, y. conjs; try assumption; try reflexivity.
    + intros ->. simpl in L1. lia.
    + now apply (Forall_charset _ _ _ charset_local).
    + intros ->. simpl in L2. lia.
    + now apply (Forall_charset _ _ _ charset_domain).
    + now apply (Forall_charset _ _ _ charset_tld).
    + rewrite (last_of_nonempty None (Some (ord "."))); [exact B1|].
      intros ->. simpl in L3. lia.
  - intros (local & domain & tld & y & -> & N1 & C1 & N2 & C2 & L3 & C3
            & B0 & B1).
    assert (tld <> []) as N3 by (intros ->; simpl in L3; lia).
    rewrite (last_of_nonempty None (Some (ord "."))) in B1 by exact N3.
    exists (last_of (Some (ord ".")) tld, y).
    exists (b, local ++ py "@" ++ domain ++ py "." ++ tld ++ y).
    split; [now split|].
    exists (last_of b local, py "@" ++ domain ++ py "." ++ tld ++ y). split.
    { apply matches_repeat_set.
      exists local, (py "@" ++ domain ++ py "." ++ tld ++ y).
      conjs; [destruct local; [now destruct N1 | simpl; lia]
             | discriminate
             | now apply (Forall_charset _ _ _ charset_local)
             | reflexivity..]. }
    exists (Some (ord "@"), domain ++ py "." ++ tld ++ y). split.
    { now exists (domain ++ py "." ++ tld ++ y). }
    exists (last_of (Some (ord "@")) domain, py "." ++ tld ++ y). split.
    { apply matches_repeat_set. exists domain, (py "." ++ tld ++ y).
      conjs; [destruct domain; [now destruct N2 | simpl; lia]
             | discriminate
             | now apply (Forall_charset _ _ _ charset_domain)
             | reflexivity..]. }
    exists (Some (ord "."), tld ++ y). split.
    { now exists (tld ++ y). }
    exists (last_of (Some (ord ".")) tld, y). split.
    { apply matches_repeat_set. exists tld, y.
      conjs; [exact L3 | discriminate
             | now apply (Forall_charset _ _ _ charset_tld)
             | reflexivity..]. }
    exists (last_of (Some (ord ".")) tld, y). split; [now split | reflexivity].
Qed.

(** The optional country code reads nothing or a country code. *)
Lemma matches_country_code (b : option codepoint) (s : pystr) (q : pos) :
  matches db
    (opt (seq_of [opt (Literal (ord "+")); Max_repeat 1 (Some 3%nat) digit;
                  separator])) (b, s) q <->
  exists cc rest : pystr,
    country_code db cc /\ s = cc ++ rest /\ q = (last_of b cc, rest).
Proof.
  rewrite matches_opt. unfold seq_of, fold_right. cbn [matches]. split.
  - intros [->|(m1 & H1 & m2 & H2 & m3 & H3 & ->)].
    + exists [], s. conjs; try reflexivity. now left.
    + apply (matches_opt_literal db) in H1 as (plus & r1 & O1 & -> & ->).
      apply (matches_repeat_set db 1 (Some 3%nat)) in H2
        as (ds & r2 & L1 & L3 & D & -> & ->).
      apply (matches_separator db) in H3 as (sep & rest & O3 & -> & ->).
      exists (plus ++ ds ++ sep), rest. conjs.
      * right. exists plus, ds, sep. conjs; try assumption; try reflexivity.
        -- now apply L3.
        -- now apply (Forall_charset _ _ _ (charset_digit db)).
      * now rewrite <- !app_assoc.
      * now rewrite !last_of_app.
  - intros (cc & rest & [->|(plus & ds & sep & -> & O1 & [L1 L3] & D & O3)]
            & -> & ->).
    + now left.
    + right.
      exists (last_of b plus, ds ++ sep ++ rest). split.
      { apply (matches_opt_literal db). exists plus, (ds ++ sep ++ rest).
        conjs; [assumption | now rewrite <- !app_assoc | reflexivity]. }
      exists (last_of (last_of b plus) ds, sep ++ rest). split.
      { apply (matches_repeat_set db 1 (Some 3%nat)).
        exists ds, (sep ++ rest).
        conjs; [assumption | now intros m [= <-]
               | now apply (Forall_charset _ _ _ (charset_digit db))
               | reflexivity..]. }
      exists (last_of (last_of (last_of b plus) ds) sep, rest). split.
      { apply (matches_separator db). now exists sep, rest. }
      now rewrite !last_of_app.
Qed.

(** The phone pattern matches from a position exactly when these follow
    one another: an optional country code, an optional opening
    parenthesis, three digits, an optional closing parenthesis, an
    optional separator, three digits, an optional separator and four
    digits, with a word boundary before them and no word character after
    them. *)
Lemma matches_phone (b : option codepoint) (s : pystr) :
  (exists q, matches db phone_re (b, s) q) <->
  exists cc open a1 close s1 a2 s2 a3 y : pystr,
    s = cc ++ open ++ a1 ++ close ++ s1 ++ a2 ++ s2 ++ a3 ++ y
    /\ country_code db cc
    /\ optional (N.eqb (ord "(")) open
    /\ decimal_digits db 3 a1
    /\ optional (N.eqb (ord ")")) close
    /\ optional (is_separator db) s1
    /\ decimal_digits db 3 a2
    /\ optional (is_separator db) s2
    /\ decimal_digits db 4 a3
    /\ at_boundary db (b, s) = true
    /\ is_word db (head y) = false.
Proof.
  unfold phone_re. unfold seq_of at 1. unfold fold_right. cbn [matches].
  split.
  - intros (q & m1 & [B0 ->] & m2 & H1 & m3 & H2 & m4 & H3 & m5 & H4 & m6
            & H5 & m7 & H6 & m8 & H7 & m9 & H8 & m10 & [B1 ->] & _).
    apply matches_country_code in H1 as (cc & r1 & C & -> & ->).
    apply (matches_opt_literal db) in H2 as (open & r2 & O2 & -> & ->).
    apply (matches_digits db) in H3 as (a1 & r3 & D3 & -> & ->).
    apply (matches_opt_literal db) in H4 as (close & r4 & O4 & -> & ->).
    apply (matches_separator db) in H5 as (s1 & r5 & O5 & -> & ->).
    apply (matches_digits db) in H6 as (a2 & r6 & D6 & -> & ->).
    apply (matches_separator db) in H7 as (s2 & r7 & O7 & -> & ->).
    apply (matches_digits db) in H8 as (a3 & y & D8 & -> & ->).
    exists cc, open, a1, close, s1, a2, s2, a3, y.
    conjs; try assumption; try reflexivity.
    unfold at_boundary, next in B1. cbn [fst snd] in B1.
    rewrite digits_end_with_word in B1;
      [now apply xorb_word_true | eapply decimal_digits_nonempty, D8
      | apply D8].
  - intros (cc & open & a1 & close & s1 & a2 & s2 & a3 & y & -> & C & O2 & D3
            & O4 & O5 & D6 & O7 & D8 & B0 & B1).
    set (b1 := last_of b cc). set (b2 := last_of b1 open).
    set (b3 := last_of b2 a1). set (b4 := last_of b3 close).
    set (b5 := last_of b4 s1). set (b6 := last_of b5 a2).
    set (b7 := last_of b6 s2). set (b8 := last_of b7 a3).
    exists (b8, y).
    eexists. split; [split; [exact B0 | reflexivity]|].
    exists (b1, open ++ a1 ++ close ++ s1 ++ a2 ++ s2 ++ a3 ++ y). split.
    { apply matches_country_code. now eexists cc, _. }
    exists (b2, a1 ++ close ++ s1 ++ a2 ++ s2 ++ a3 ++ y). split.
    { apply (matches_opt_literal db). now eexists open, _. }
    exists (b3, close ++ s1 ++ a2 ++ s2 ++ a3 ++ y). split.
    { apply (matches_digits db). now eexists a1, _. }
    exists (b4, s1 ++ a2 ++ s2 ++ a3 ++ y). split.
    { apply (matches_opt_literal db). now eexists close, _. }
    exists (b5, a2 ++ s2 ++ a3 ++ y). split.
    { apply (matches_separator db). now eexists s1, _. }
    exists (b6, s2 ++ a3 ++ y). split.
    { apply (matches_digits db). now eexists a2, _. }
    exists (b7, a3 ++ y). split.
    { apply (matches_separator db). now eexists s2, _. }
    exists (b8, y). split.
    { apply (matches_digits db). now eexists a3, _. }
    exists (b8, y). split; [|reflexivity]. split; [|reflexivity].
    unfold at_boundary, next. cbn [fst snd]. unfold b8.
    rewrite B1, digits_end_with_word;
      [reflexivity | eapply decimal_digits_nonempty, D8 | apply D8].
Qed.

(** From a match at some position to a report, and back. *)
Lemma detects_iff (r : regex) (text : pystr) :
  bounds_in_order r = true ->
  detects db r text = true <->
  exists x s : pystr,
    text = x ++ s /\ exists q, matches db r (last_of None x, s) q.
Proof.
  intros Hwf. rewrite (search_matches db r text Hwf). split.
  - intros (x & s & q & -> & H). exists x, s. split; [reflexivity|].
    now exists q.
  - intros (x & s & -> & q & H). now exists x, s, q.
Qed.

End Detectors.

(** ** The entries of the PII pass, one by one *)

Lemma filter_nil_iff {A} (f : A -> bool) (l : list A) :
  List.filter f l = [] <-> forall x, In x l -> f x = false.
Proof.
  induction l as [|a l IH]; cbn [List.filter].
  - split; [intros _ x [] | reflexivity].
  - destruct (f a) eqn:E; split.
    + discriminate.
    + intros H. rewrite (H a) in E by now left. discriminate.
    + intros H x [<-|Hx]; [exact E | now apply IH].
    + intros H. apply IH. intros x Hx. apply H. now right.
Qed.

Section Entries.

Variable db : ucd.

(** An entry of the PII pass is in the list exactly when its pattern is
    found. *)
Ltac pii_entry text :=
  unfold three_passes; rewrite !in_app_iff; split;
  [ intros [H|[H|H]];
    [ pose proof (discriminatory_pass_tags db text) as T;
      rewrite List.Forall_forall in T;
      apply T in H as [H _]; discriminate H
    | unfold pii_pass in H;
      destruct (detects db email_re _), (detects db phone_re _),
        (detects db ssn_re _); try reflexivity;
      cbn [app In] in H;
      repeat (destruct H as [H|H]; [vm_compute in H; discriminate H|]);
      destruct H
    | pose proof (unprofessional_pass_tags db text) as T;
      rewrite List.Forall_forall in T;
      apply T in H as [_ H]; discriminate H ]
  | intros H; right; left; unfold pii_pass; rewrite H;
    rewrite !in_app_iff; cbn [In]; auto ].

Lemma email_entry (text : pystr) :
  In (py "PII detected: email") (three_passes db text)
  <-> detects db email_re text = true.
Proof. pii_entry text. Qed.

Lemma phone_entry (text : pystr) :
  In (py "PII detected: phone") (three_passes db text)
  <-> detects db phone_re text = true.
Proof. pii_entry text. Qed.

Lemma ssn_entry (text : pystr) :
  In (py "PII detected: ssn") (three_passes db text)
  <-> detects db ssn_re text = true.
Proof. pii_entry text. Qed.

End Entries.

(** ** Lower-casing of ASCII text *)

Lemma do_lower_ascii (db : ucd) (before u after : pystr) :
  forallb is_ascii u = true ->
  do_lower db before (u ++ after)
  = List.map ascii_tolower u ++ do_lower db (before ++ u) after.
Proof.
  revert before; induction u as [|c u IH]; intros before H;
    cbn [app List.map do_lower].
  - now rewrite app_nil_r.
  - cbn [forallb] in H. apply andb_prop in H as [Hc Hu].
    unfold lower_ucs4. rewrite Hc. cbn [app]. unfold ascii_tolower at 1.
    now rewrite (IH _ Hu), <- app_assoc.
Qed.

(** A stretch of ASCII text is found in lower case in the lower-cased
    text, whatever stands around it. *)
Lemma contains_lower_ascii (db : ucd) (before u after : pystr) :
  forallb is_ascii u = true ->
  contains (str_lower db (before ++ u ++ after)) (List.map ascii_tolower u)
  = true.
Proof.
  intros Hu. unfold str_lower.
  destruct (do_lower_app db [] before (u ++ after)) as [l ->].
  rewrite (do_lower_ascii _ _ _ _ Hu). apply contains_app.
Qed.

(** ** What the checker reports, and what it keeps quiet about *)

Section Reports.

Variable db : ucd.

(** X1. The SSN entry is reported exactly for the texts that hold three,
    two and four decimal digits joined by hyphens, with no word character
    right before or right after them. *)
Theorem ssn_reported_iff (text : pystr) (cache : re_cache) :
  cache_ok cache ->
  exists vs,
    fst (policy_check db text cache) = Ok vs
    /\ (In (py "PII detected: ssn") vs <->
        exists x a1 a2 a3 y : pystr,
          text = x ++ a1 ++ py "-" ++ a2 ++ py "-" ++ a3 ++ y
          /\ decimal_digits db 3 a1 /\ decimal_digits db 2 a2
          /\ decimal_digits db 4 a3
          /\ is_word db (last_of None x) = false
          /\ is_word db (head y) = false).
Proof.
  intros Hc. destruct (policy_check_run db text cache Hc) as (c' & -> & _).
  exists (three_passes db text). split; [reflexivity|].
  rewrite ssn_entry, (detects_iff db ssn_re text eq_refl). split.
  - intros (x & s & -> & H). apply matches_ssn in H
      as (a1 & a2 & a3 & y & -> & H). now exists x, a1, a2, a3, y.
  - intros (x & a1 & a2 & a3 & y & -> & H). eexists x, _.
    split; [reflexivity|]. apply matches_ssn. now exists a1, a2, a3, y.
Qed.

(** X2. The email entry is reported exactly for the texts that hold a
    non-empty local part over letters, digits and [._%+-], an at sign, a
    non-empty domain over letters, digits and [.-], a dot, and two or more
    characters that are letters or [|], with a word boundary before the
    local part and after the last of those characters. *)
Theorem email_reported_iff (text : pystr) (cache : re_cache) :
  cache_ok cache ->
  exists vs,
    fst (policy_check db text cache) = Ok vs
    /\ (In (py "PII detected: email") vs <->
        exists x local domain tld y : pystr,
          text = x ++ local ++ py "@" ++ domain ++ py "." ++ tld ++ y
          /\ local <> [] /\ Forall (fun c => is_local_char c = true) local
          /\ domain <> [] /\ Forall (fun c => is_domain_char c = true) domain
          /\ (2 <= length tld)%nat
          /\ Forall (fun c => is_tld_char c = true) tld
          /\ boundary_between db x
               (local ++ py "@" ++ domain ++ py "." ++ tld ++ y)
          /\ boundary_between db tld y).
Proof.
  intros Hc. destruct (policy_check_run db text cache Hc) as (c' & -> & _).
  exists (three_passes db text). split; [reflexivity|].
  rewrite email_entry, (detects_iff db email_re text eq_refl).
  unfold boundary_between. split.
  - intros (x & s & -> & H). apply matches_email in H
      as (local & domain & tld & y & -> & H).
    now exists x, local, domain, tld, y.
  - intros (x & local & domain & tld & y & -> & H). eexists x, _.
    split; [reflexivity|]. apply matches_email.
    now exists local, domain, tld, y.
Qed.

(** X3. The phone entry is reported exactly for the texts that hold, one
    after the other: an optional country code (an optional plus sign, one
    to three digits, an optional separator), an optional opening
    parenthesis, three digits, an optional closing parenthesis, an
    optional separator, three digits, an optional separator and four
    digits, where a separator is a hyphen, a dot or a white-space
    character; with a word boundary before them and no word character
    after them. *)
Theorem phone_reported_iff (text : pystr) (cache : re_cache) :
  cache_ok cache ->
  exists vs,
    fst (policy_check db text cache) = Ok vs
    /\ (In (py "PII detected: phone") vs <->
        exists x cc open a1 close s1 a2 s2 a3 y : pystr,
          text = x ++ cc ++ open ++ a1 ++ close ++ s1 ++ a2 ++ s2 ++ a3 ++ y
          /\ country_code db cc
          /\ optional (N.eqb (ord "(")) open
          /\ decimal_digits db 3 a1
          /\ optional (N.eqb (ord ")")) close
          /\ optional (is_separator db) s1
          /\ decimal_digits db 3 a2
          /\ optional (is_separator db) s2
          /\ decimal_digits db 4 a3
          /\ boundary_between db x
               (cc ++ open ++ a1 ++ close ++ s1 ++ a2 ++ s2 ++ a3 ++ y)
          /\ is_word db (head y) = false).
Proof.
  intros Hc. destruct (policy_check_run db text cache Hc) as (c' & -> & _).
  exists (three_passes db text). split; [reflexivity|].
  rewrite phone_entry, (detects_iff db phone_re text eq_refl).
  unfold boundary_between. split.
  - intros (x & s & -> & H). apply matches_phone in H
      as (cc & open & a1 & close & s1 & a2 & s2 & a3 & y & -> & H).
    now exists x, cc, open, a1, close, s1, a2, s2, a3, y.
  - intros (x & cc & open & a1 & close & s1 & a2 & s2 & a3 & y & -> & H).
    eexists x, _. split; [reflexivity|]. apply matches_phone.
    now exists cc, open, a1, close, s1, a2, s2, a3, y.
Qed.

(** X4. Without an at sign in the text the email entry is never
    reported, and without a decimal digit in the text neither the phone
    entry nor the SSN entry is. *)
Theorem pii_needs_its_characters (text : pystr) (cache : re_cache) :
  cache_ok cache ->
  exists vs,
    fst (policy_check db text cache) = Ok vs
    /\ (~ In (ord "@") text -> ~ In (py "PII detected: email") vs)
    /\ (Forall (fun c => Py_UNICODE_ISDECIMAL db c = false) text ->
        ~ In (py "PII detected: phone") vs
        /\ ~ In (py "PII detected: ssn") vs).
Proof.
  intros Hc. destruct (policy_check_run db text cache Hc) as (c' & -> & _).
  exists (three_passes db text). split; [reflexivity|].
  assert (forall (x a rest : pystr) n,
            Forall (fun c => Py_UNICODE_ISDECIMAL db c = false)
              (x ++ a ++ rest) ->
            decimal_digits db (S n) a -> False) as Hdigit.
  { intros x a rest n H [Hlen Ha].
    destruct a as [|d a]; [discriminate Hlen|].
    apply Forall_app in H as [_ H]. apply Forall_cons_iff in H as [H _].
    apply Forall_cons_iff in Ha as [Ha _]. congruence. }
  split.
  - intros Hno H. apply email_entry, (detects_iff db email_re text eq_refl) in H
      as (x & s & -> & H).
    apply matches_email in H as (local & domain & tld & y & -> & _).
    apply Hno. rewrite !in_app_iff. right. right. left. now left.
  - intros Hno. split; intros H.
    + apply phone_entry, (detects_iff db phone_re text eq_refl) in H
        as (x & s & -> & H).
      apply matches_phone in H
        as (cc & open & a1 & close & s1 & a2 & s2 & a3 & y & -> & _ & _ & D
            & _).
      rewrite !(app_assoc x), !(app_assoc (x ++ cc)) in Hno.
      exact (Hdigit _ _ _ _ Hno D).
    + apply ssn_entry, (detects_iff db ssn_re text eq_refl) in H
        as (x & s & -> & H).
      apply matches_ssn in H as (a1 & a2 & a3 & y & -> & D & _).
      exact (Hdigit _ _ _ _ Hno D).
Qed.

(** X5. Detection does not depend on the case of ASCII letters or on what
    surrounds a phrase: a text that holds a banned phrase in any mix of
    upper and lower case gets the entry of that phrase, and a text that
    holds an unprofessional word in any mix of case gets the combined
    entry with that word in it. *)
Theorem any_case_is_detected (before u after : pystr) (cache : re_cache) :
  cache_ok cache ->
  forallb is_ascii u = true ->
  exists vs,
    fst (policy_check db (before ++ u ++ after) cache) = Ok vs
    /\ (In (List.map ascii_tolower u) BANNED_PATTERNS ->
        In (py "Discriminatory reasoning detected: '" ++
            List.map ascii_tolower u ++ py "'") vs)
    /\ (In (List.map ascii_tolower u) unprofessional_words ->
        exists front words,
          vs = front ++
               [py "Unprofessional language: " ++ join (py ", ") words]
          /\ In (List.map ascii_tolower u) words).
Proof.
  intros Hc Hu.
  destruct (policy_check_run db (before ++ u ++ after) cache Hc)
    as (c' & -> & _).
  pose proof (contains_lower_ascii db before u after Hu) as Hin.
  exists (three_passes db (before ++ u ++ after)). split; [reflexivity|].
  unfold three_passes. split.
  - intros Hb. apply in_or_app. left.
    unfold discriminatory_pass, matched_phrases.
    apply (in_map discriminatory_message). now apply filter_In.
  - intros Hw.
    assert (In (List.map ascii_tolower u)
              (matched_words db (before ++ u ++ after))) as Hm
      by now apply filter_In.
    exists (discriminatory_pass db (before ++ u ++ after) ++
            pii_pass db (before ++ u ++ after)),
           (matched_words db (before ++ u ++ after)).
    split; [|exact Hm]. rewrite <- app_assoc. do 2 f_equal.
    unfold unprofessional_pass.
    destruct (matched_words db (before ++ u ++ after));
      [destruct Hm | reflexivity].
Qed.

(** X6. The lenient route answers [is_valid] true exactly when the
    lower-cased text holds no banned phrase and no unprofessional word and
    no pattern of the PII table matches the text: whatever is found is
    enough to turn the answer. *)
Theorem valid_iff_nothing_found (t : pystr) (cache : re_cache) :
  cache_ok cache ->
  exists resp,
    fst (validate_text db {| text := t |} cache) = Ok resp
    /\ (is_valid resp = true <->
        (forall p, In p BANNED_PATTERNS ->
                   contains (str_lower db t) p = false)
        /\ (forall kind pattern r, In (kind, pattern) PII_PATTERNS ->
                                   sre_compile pattern = Ok r ->
                                   search db r t = None)
        /\ (forall w, In w unprofessional_words ->
                      contains (str_lower db t) w = false)).
Proof.
  intros Hc. unfold validate_text, bind. cbn [text].
  destruct (policy_check_run db t cache Hc) as (c' & -> & _).
  assert (three_passes db t = [] <->
          List.filter (contains (str_lower db t)) BANNED_PATTERNS = []
          /\ (detects db email_re t = false /\ detects db phone_re t = false
              /\ detects db ssn_re t = false)
          /\ List.filter (contains (str_lower db t)) unprofessional_words = [])
    as Hnil.
  { unfold three_passes, discriminatory_pass, pii_pass, unprofessional_pass,
      matched_phrases, matched_words.
    destruct (List.filter _ BANNED_PATTERNS);
      destruct (detects db email_re t), (detects db phone_re t),
        (detects db ssn_re t);
      destruct (List.filter _ unprofessional_words); cbn [List.map app];
      split; try discriminate; try tauto;
      intros (H1 & (H2 & H3 & H4) & H5); discriminate. }
  rewrite !filter_nil_iff in Hnil.
  assert (forall r, detects db r t = false <-> search db r t = None) as Hd.
  { intros r. unfold detects. destruct (search db r t); split;
      (reflexivity || discriminate). }
  destruct (three_passes db t) as [|v vs] eqn:E;
    cbn [nonempty fst ret]; eexists; (split; [reflexivity|]);
    cbn [is_valid]; split; try discriminate.
  - intros _. destruct Hnil as [(H1 & (H2 & H3 & H4) & H5) _]; [reflexivity|].
    conjs; try assumption.
    intros kind pattern r Hin Hr.
    repeat (destruct Hin as [Hin|Hin];
            [injection Hin as <- <-;
             first [rewrite compile_email in Hr | rewrite compile_phone in Hr
                   | rewrite compile_ssn in Hr];
             injection Hr as <-; now apply Hd|]).
    destruct Hin.
  - reflexivity.
  - intros (H1 & H2 & H3). exfalso.
    assert (@nil pystr = v :: vs) as Habs; [|discriminate Habs].
    symmetry. apply Hnil. conjs; try assumption; apply Hd.
    + apply (H2 (py "email") _ _ ltac:(left; reflexivity) compile_email).
    + apply (H2 (py "phone") _ _ ltac:(right; left; reflexivity)
               compile_phone).
    + apply (H2 (py "ssn") _ _ ltac:(right; right; left; reflexivity)
               compile_ssn).
Qed.

(** X7. The two routes agree on every text: the strict route returns its
    OK dictionary exactly when the lenient route answers [is_valid] true,
    the violations it raises are the ones the lenient route lists, and
    both leave the same state behind. *)
Theorem routes_agree (payload : gmap pystr json) (t : pystr)
  (cache : re_cache) :
  cache_ok cache ->
  payload !! py "text" = Some (JStr t) ->
  exists resp,
    fst (validate_text db {| text := t |} cache) = Ok resp
    /\ snd (validate_text db {| text := t |} cache)
       = snd (validate_text_strict db payload cache)
    /\ ((is_valid resp = true
         /\ fst (validate_text_strict db payload cache)
            = Ok {[ py "status" := JStr (py "OK");
                    py "validated_text" := JStr t ]})
        \/ (is_valid resp = false
            /\ exists vs,
                violations resp = Some vs
                /\ fst (validate_text_strict db payload cache)
                   = Raise (HTTPException 400
                              (JDict {[ py "error" :=
                                          JStr (py "POLICY_VIOLATION");
                                        py "violations" :=
                                          JList (JStr <$> vs) ]})))).
Proof.
  intros Hc Ht. unfold validate_text, validate_text_strict, dict_get.
  rewrite Ht. cbn [from_option id text]. unfold bind.
  destruct (policy_check_run db t cache Hc) as (c' & -> & _).
  destruct (three_passes db t) as [|v vs]; cbn [nonempty];
    eexists; (split; [reflexivity|]); (split; [reflexivity|]).
  - left. split; reflexivity.
  - right. split; [reflexivity|]. exists (v :: vs). split; reflexivity.
Qed.

End Reports.

(** ** [student_support/app.py]: the learning paths *)


(** Inserting keys that are all different keeps them all, in order. *)
Lemma fromkeys_fold_NoDup (l acc : list pystr) :
  List.NoDup (acc ++ l) ->
  fold_left (fun keys k => if decide (k ∈ keys) then keys else keys ++ [k])
    l acc
  = acc ++ l.
Proof.
  revert acc; induction l as [|k l IH]; intros acc H; cbn [fold_left].
  - now rewrite app_nil_r.
  - destruct (decide (k ∈ acc)) as [Hin|_].
    + apply NoDup_ListNoDup, NoDup_app in H as (_ & H & _).
      destruct (H k Hin). now left.
    + rewrite (IH (acc ++ [k])); rewrite <- app_assoc; [reflexivity|exact H].
Qed.

Lemma dict_fromkeys_NoDup (l : list pystr) :
  List.NoDup l -> dict_fromkeys l = l.
Proof. intros H. now apply (fromkeys_fold_NoDup l []). Qed.

Lemma keywords_NoDup : List.NoDup StudentSupport.keywords.
Proof.
  apply NoDup_ListNoDup, (bool_decide_unpack _). vm_compute. reflexivity.
Qed.

Lemma in_take_app {A} (l : list A) (x : A) (rest : list A) (n : nat) :
  (length l < n)%nat -> In x (take n (l ++ x :: rest)).
Proof.
  revert n; induction l as [|a l IH]; intros [|n] Hn; simpl in *; try lia.
  - now left.
  - right. apply IH. lia.
Qed.

(** An element that a filter keeps, with fewer than [n] elements before
    it, is among the first [n] that are kept. *)
Lemma in_take_filter {A} (f : A -> bool) (pre : list A) (x : A)
  (rest : list A) (n : nat) :
  f x = true -> (length pre < n)%nat ->
  In x (take n (List.filter f (pre ++ x :: rest))).
Proof.
  intros Hx Hn. rewrite List.filter_app. cbn [List.filter]. rewrite Hx.
  apply in_take_app. pose proof (filter_length_le f pre). lia.
Qed.

Lemma keywords_split :
  StudentSupport.keywords
  = [py "Python"; py "Java"; py "JavaScript"; py "C++"] ++
    py "R" :: drop 5 StudentSupport.keywords.
Proof. reflexivity. Qed.

Lemma lower_R (db : ucd) : str_lower db (py "R") = py "r".
Proof. reflexivity. Qed.

Section LearningPaths.

Variable db : ucd.

(** No keyword is listed twice, so nothing is lost to [dict.fromkeys]:
    the paths are the first five keywords that occur, or the three
    defaults. *)
Lemma extract_learning_paths_eq (message : pystr) :
  StudentSupport.extract_learning_paths db message
  = if nonempty (mentioned db message)
    then take 5 (mentioned db message)
    else [py "Data Analysis"; py "Python"; py "Communication"].
Proof.
  unfold StudentSupport.extract_learning_paths.
  rewrite (fold_left_append _ (fun k : pystr => k)). cbn [app].
  rewrite List.map_id. unfold mentioned.
  now rewrite dict_fromkeys_NoDup
    by apply List.NoDup_filter, keywords_NoDup.
Qed.


(** X9. The keyword "R" is looked for as the letter r: every message with
    an r or an R anywhere in it gets "R" among its learning paths. *)
Theorem letter_r_gives_R (message : pystr) :
  In (ord "r") message \/ In (ord "R") message ->
  In (py "R") (StudentSupport.extract_learning_paths db message).
Proof.
  intros H.
  assert (contains (str_lower db message) (str_lower db (py "R")) = true)
    as Hr.
  { rewrite lower_R.
    destruct H as [H|H]; apply in_split in H as (before & after & ->).
    - apply (contains_lower_ascii db before [ord "r"] after). reflexivity.
    - apply (contains_lower_ascii db before [ord "R"] after). reflexivity. }
  rewrite extract_learning_paths_eq.
  assert (In (py "R") (mentioned db message)) as HinR.
  { apply filter_In. split; [|exact Hr].
    rewrite keywords_split. apply in_elt. }
  destruct (mentioned db message) as [|k ks] eqn:E; [destruct HinR|].
  cbn [nonempty]. rewrite <- E. unfold mentioned. rewrite keywords_split.
  apply in_take_filter; [exact Hr | simpl; lia].
Qed.

End LearningPaths.

(** ** [student_support/app.py]: stripping, and the prompt of [/support] *)

Section Stripping.

Variable db : ucd.

Lemma lstrip_blank (s : pystr) : blank db s = true -> lstrip db s = [].
Proof.
  induction s as [|c s IH]; cbn [blank forallb lstrip]; [reflexivity|].
  intros H. apply andb_prop in H as [-> H]. now apply IH.
Qed.

(** What is left of a string that is not blank starts with a code point
    that is not white space. *)
Lemma lstrip_not_blank (s : pystr) :
  blank db s = false ->
  exists c s', lstrip db s = c :: s' /\ Py_UNICODE_ISSPACE db c = false.
Proof.
  induction s as [|c s IH]; cbn [blank forallb lstrip]; [discriminate|].
  destruct (Py_UNICODE_ISSPACE db c) eqn:E; cbn [andb]; [exact IH|].
  intros _. now exists c, s.
Qed.

Lemma blank_app (s t : pystr) :
  blank db (s ++ t) = blank db s && blank db t.
Proof. unfold blank. apply forallb_app. Qed.

Lemma blank_rev (s : pystr) : blank db (rev s) = blank db s.
Proof.
  induction s as [|c s IH]; [reflexivity|].
  cbn [rev]. rewrite blank_app, IH. cbn [blank forallb].
  now rewrite andb_true_r, andb_comm.
Qed.

(** Stripping leaves nothing exactly of the blank strings. *)
Lemma strip_empty_iff (s : pystr) :
  nonempty (strip db s) = false <-> blank db s = true.
Proof.
  unfold strip, rstrip. destruct (blank db s) eqn:E.
  - rewrite (lstrip_blank s E). now cbn.
  - destruct (lstrip_not_blank s E) as (c & s' & -> & Hc).
    assert (blank db (rev (c :: s')) = false) as Hr.
    { rewrite blank_rev. cbn [blank forallb]. now rewrite Hc. }
    destruct (lstrip_not_blank _ Hr) as (d & t & -> & _).
    cbn [rev]. destruct (rev t); cbn; split; discriminate.
Qed.

End Stripping.

Section Support.

Variable db : ucd.
Variable kickoff : pystr -> crew_outcome.

Lemma blank_is_rejected (s : pystr) :
  blank db s = true ->
  negb (nonempty s) || negb (nonempty (strip db s)) = true.
Proof.
  intros H. apply (strip_empty_iff db) in H. rewrite H. apply orb_true_r.
Qed.

(** X10. A request whose prompts are all missing or blank is rejected
    with the client error "Prompt cannot be empty...", whatever the crew
    would answer; and so is a request whose JSON body holds a prompt that
    is not empty but blank, even when [key] or [prompt] hold a question:
    the body goes first. *)
Theorem blank_prompt_rejected (request : option StudentSupport.StudentRequest)
  (key prompt : option pystr) :
  (no_text db (StudentSupport.prompt <$> request) = true
   /\ no_text db key = true /\ no_text db prompt = true)
  \/ (exists s, request = Some {| StudentSupport.prompt := s |}
                /\ s <> [] /\ blank db s = true) ->
  StudentSupport.get_student_support db kickoff request key prompt
  = Raise StudentSupport.prompt_cannot_be_empty.
Proof.
  unfold StudentSupport.get_student_support.
  intros [(H1 & H2 & H3)|(s & -> & Hs & Hb)].
  - destruct request as [[[|c s]]|], key as [[|c' k]|], prompt as [[|c'' p]|];
      cbn [fmap option_fmap option_map StudentSupport.prompt
           StudentSupport.truthy no_text] in *;
      try reflexivity;
      match goal with
      | H : blank db (?c :: ?s) = true |- context [strip db (?c :: ?s)] =>
          now rewrite (blank_is_rejected (c :: s) H)
      end.
  - destruct s as [|c s]; [now destruct Hs|].
    cbn [fmap option_fmap option_map StudentSupport.prompt
         StudentSupport.truthy].
    now rewrite (blank_is_rejected (c :: s) Hb).
Qed.

(** X11. The [/support] route lets no other exception out than its own
    two: it answers "success" with what the crew answered to one of the
    submitted prompts, a prompt that is not blank; or it raises the client
    error for an empty prompt; or, when the crew fails on that prompt, the
    server error that carries the text of the failure. *)
Theorem support_route_outcomes (request : option StudentSupport.StudentRequest)
  (key prompt : option pystr) :
  match StudentSupport.get_student_support db kickoff request key prompt with
  | Ok resp =>
      StudentSupport.status resp = py "success"
      /\ exists s,
          In (Some s) [StudentSupport.prompt <$> request; key; prompt]
          /\ blank db s = false
          /\ StudentSupport.run_student_support_crew kickoff s
             = Answer (StudentSupport.result resp)
  | Raise e =>
      e = StudentSupport.prompt_cannot_be_empty
      \/ exists s message,
          In (Some s) [StudentSupport.prompt <$> request; key; prompt]
          /\ blank db s = false
          /\ StudentSupport.run_student_support_crew kickoff s
             = Failure message
          /\ e = HTTPException 500
                   (JStr (py "Error processing student support request: "
                          ++ message))
  end.
Proof.
  unfold StudentSupport.get_student_support.
  set (chosen :=
         if StudentSupport.truthy (StudentSupport.prompt <$> request)
         then StudentSupport.prompt <$> request
         else if StudentSupport.truthy key then key
              else if StudentSupport.truthy prompt then prompt else None).
  assert (forall s, chosen = Some s ->
            In (Some s) [StudentSupport.prompt <$> request; key; prompt])
    as Hin.
  { unfold chosen. intros s.
    destruct (StudentSupport.truthy (StudentSupport.prompt <$> request));
      [intros <-; now left|].
    destruct (StudentSupport.truthy key); [intros <-; right; now left|].
    destruct (StudentSupport.truthy prompt); [|discriminate].
    intros <-. right. right. now left. }
  destruct chosen as [s|]; [|now left].
  destruct (negb (nonempty s) || negb (nonempty (strip db s))) eqn:E;
    [now left|].
  apply orb_false_elim in E as [_ E]. apply negb_false_iff in E.
  assert (blank db s = false) as Hs.
  { destruct (blank db s) eqn:B; [|reflexivity].
    apply (strip_empty_iff db) in B. congruence. }
  destruct (StudentSupport.run_student_support_crew kickoff s) as [out|msg]
    eqn:K.
  - split; [reflexivity|]. exists s. auto.
  - right. exists s, msg. auto.
Qed.

End Support.

(** ** Substrings across joins and strips *)

Lemma contains_iff (s m : pystr) :
  contains s m = true <-> exists a b : pystr, s = a ++ m ++ b.
Proof.
  split; [apply contains_inv|]. intros (a & b & ->). apply contains_app.
Qed.

Lemma contains_mono (a x b m : pystr) :
  contains x m = true -> contains (a ++ x ++ b) m = true.
Proof.
  intros H. apply contains_inv in H as (u & v & ->). apply contains_iff.
  exists (a ++ u), (v ++ b). now rewrite <- !app_assoc.
Qed.

Lemma contains_false_mono (a x b m : pystr) :
  contains (a ++ x ++ b) m = false -> contains x m = false.
Proof.
  intros H. destruct (contains x m) eqn:E; [|reflexivity].
  now rewrite (contains_mono a x b m E) in H.
Qed.

Lemma contains_rev (s m : pystr) : contains (rev s) (rev m) = contains s m.
Proof.
  assert (forall s m : pystr,
            contains s m = true -> contains (rev s) (rev m) = true) as H.
  { intros s' m' H. apply contains_inv in H as (a & b & ->).
    rewrite !rev_app_distr, <- app_assoc. apply contains_app. }
  destruct (contains s m) eqn:E.
  - now apply H.
  - destruct (contains (rev s) (rev m)) eqn:E'; [|reflexivity].
    apply H in E'. rewrite !rev_involutive in E'. congruence.
Qed.

(** A string without the code point [c] that starts in [u ++ c :: v]
    ends before the [c]. *)
Lemma startswith_before (u v m : pystr) (c : codepoint) :
  ~ In c m -> startswith (u ++ c :: v) m = true -> startswith u m = true.
Proof.
  revert u; induction m as [|d m IH]; intros u Hc H; [reflexivity|].
  destruct u as [|x u]; cbn [app startswith] in *.
  - apply andb_prop in H as [H _]. apply N.eqb_eq in H. subst d.
    destruct Hc. now left.
  - apply andb_prop in H as [-> H]. apply IH; [|exact H].
    intros Hin. apply Hc. now right.
Qed.

(** And it occurs in [u ++ c :: v] on one side of the [c]. *)
Lemma contains_beside (u v m : pystr) (c : codepoint) :
  ~ In c m -> m <> [] -> contains (u ++ c :: v) m = true ->
  contains u m = true \/ contains v m = true.
Proof.
  intros Hc Hm. induction u as [|x u IH]; cbn [app contains]; intros H.
  - apply orb_prop in H as [H|H]; [|now right].
    apply (startswith_before [] v m c Hc) in H.
    destruct m; [now destruct Hm | discriminate H].
  - apply orb_prop in H as [H|H].
    + left. apply (startswith_before (x :: u) v m c Hc) in H.
      now rewrite H.
    + destruct (IH H) as [H'|H']; [left | now right].
      rewrite H'. apply orb_true_r.
Qed.

Lemma contains_nil (m : pystr) : m <> [] -> contains [] m = false.
Proof. destruct m; [now intros [] | reflexivity]. Qed.

(** It occurs in a join on [c] only inside one of the parts. *)
Lemma contains_join (parts : list pystr) (m : pystr) (c : codepoint) :
  ~ In c m -> m <> [] -> contains (join [c] parts) m = true ->
  exists part, In part parts /\ contains part m = true.
Proof.
  intros Hc Hm. induction parts as [|x parts IH]; cbn [join].
  - rewrite (contains_nil m Hm). discriminate.
  - destruct parts as [|y parts].
    + intros H. exists x. split; [now left | exact H].
    + intros H. apply (contains_beside x _ m c Hc Hm) in H as [H|H].
      * exists x. split; [now left | exact H].
      * destruct (IH H) as (part & Hin & Hp). exists part.
        split; [now right | exact Hp].
Qed.

Section StripFacts.

Variable db : ucd.

Lemma lstrip_suffix (s : pystr) : exists a, s = a ++ lstrip db s.
Proof.
  induction s as [|c s [a IH]]; cbn [lstrip]; [now exists []|].
  destruct (Py_UNICODE_ISSPACE db c).
  - exists (c :: a). cbn [app]. now f_equal.
  - now exists [].
Qed.

Lemma strip_inside (s : pystr) : exists a b, s = a ++ strip db s ++ b.
Proof.
  unfold strip, rstrip. destruct (lstrip_suffix s) as [a Ha].
  destruct (lstrip_suffix (rev (lstrip db s))) as [b Hb].
  exists a, (rev b). rewrite <- rev_app_distr, <- Hb, rev_involutive.
  exact Ha.
Qed.

(** What occurs in the stripped string occurs in the string. *)
Lemma contains_strip (s m : pystr) :
  contains (strip db s) m = true -> contains s m = true.
Proof.
  intros H. destruct (strip_inside s) as (a & b & E). rewrite E.
  now apply contains_mono.
Qed.

(** A string that starts with no white space is not touched by the
    stripping of white space before it. *)
Lemma contains_lstrip (s m : pystr) (d : codepoint) :
  head m = Some d -> Py_UNICODE_ISSPACE db d = false ->
  contains (lstrip db s) m = contains s m.
Proof.
  intros Hm Hd. destruct m as [|d' m]; [discriminate|].
  injection Hm as ->.
  induction s as [|c s IH]; cbn [lstrip]; [reflexivity|].
  destruct (Py_UNICODE_ISSPACE db c) eqn:E; [|reflexivity].
  rewrite IH. cbn [contains startswith].
  destruct (N.eqb_spec d c) as [->|_]; [congruence | reflexivity].
Qed.

(** Stripping a line loses no occurrence of a string that starts and ends
    with no white space. *)
Lemma contains_strip_eq (s m : pystr) (d e : codepoint) :
  head m = Some d -> Py_UNICODE_ISSPACE db d = false ->
  head (rev m) = Some e -> Py_UNICODE_ISSPACE db e = false ->
  contains (strip db s) m = contains s m.
Proof.
  intros Hd Hd' He He'. unfold strip, rstrip.
  rewrite <- (rev_involutive m) at 1. rewrite contains_rev.
  rewrite (contains_lstrip _ _ e He He'), contains_rev.
  now apply (contains_lstrip _ _ d).
Qed.

End StripFacts.

(** ** Replacing runs of line feeds *)

(** A prefix on one line of the text with its runs of three line feeds
    replaced is a prefix of the text. *)
Lemma startswith_collapsed (s m : pystr) :
  one_line m ->
  startswith (str_replace s (newlines 3) (newlines 2)) m = true ->
  startswith s m = true.
Proof.
  unfold str_replace. intros Hm. revert m Hm.
  induction s as [|c s IH]; intros m Hm; cbn [replace_go]; [trivial|].
  destruct (startswith (c :: s) (newlines 3)).
  - destruct m as [|d m]; [reflexivity|]. cbn [newlines repeat app startswith].
    intros H. apply andb_prop in H as [H _]. apply N.eqb_eq in H.
    destruct Hm. now left.
  - destruct m as [|d m]; [reflexivity|]. cbn [startswith].
    intros H. apply andb_prop in H as [-> H]. apply IH; [|exact H].
    intros Hin. apply Hm. now right.
Qed.

(** What occurs on one line after the replacement occurred before it. *)
Lemma contains_collapsed (s m : pystr) (k : nat) :
  one_line m -> m <> [] ->
  contains (replace_go (newlines 3) (newlines 2) k s) m = true ->
  contains s m = true.
Proof.
  intros Hm Hne. revert k.
  induction s as [|c s IH]; intros k; cbn [replace_go]; [trivial|].
  assert (forall t, contains t m = true -> contains (c :: t) m = true) as Hc.
  { intros t Ht. cbn [contains]. rewrite Ht. apply orb_true_r. }
  destruct k as [|k]; [|intros H; eapply Hc, IH, H].
  destruct (startswith (c :: s) (newlines 3)).
  - cbn [newlines repeat app]. intros H.
    apply (contains_beside [] _ m LF Hm Hne) in H as [H|H];
      [now rewrite (contains_nil m Hne) in H|].
    apply (contains_beside [] _ m LF Hm Hne) in H as [H|H];
      [now rewrite (contains_nil m Hne) in H|].
    eapply Hc, IH, H.
  - cbn [contains]. intros H. apply orb_prop in H as [H|H].
    + destruct m as [|d m]; [now destruct Hne|]. cbn [startswith] in *.
      apply andb_prop in H as [-> H]. cbn [andb].
      rewrite (startswith_collapsed s m); [reflexivity| |exact H].
      intros Hin. apply Hm. now right.
    + rewrite (IH 0%nat H). apply orb_true_r.
Qed.

(** The replacement never makes a text longer, and every turn of it
    makes a text with three line feeds in a row shorter. *)
Lemma replace_go_length (s : pystr) (k : nat) :
  (length (replace_go (newlines 3) (newlines 2) k s) + Nat.min k (length s)
   <= length s)%nat.
Proof.
  revert k; induction s as [|c s IH]; intros k; cbn [replace_go].
  - cbn [length]. lia.
  - destruct k as [|k].
    + destruct (startswith (c :: s) (newlines 3)) eqn:E.
      * apply startswith_inv in E as (rest & E). injection E as -> E.
        specialize (IH 2%nat). rewrite E in *.
        cbn [newlines repeat app length Nat.sub] in *. lia.
      * cbn [length]. specialize (IH 0%nat). lia.
    + cbn [length]. specialize (IH k). lia.
Qed.

Lemma str_replace_shorter (s : pystr) :
  contains s (newlines 3) = true ->
  (length (str_replace s (newlines 3) (newlines 2)) < length s)%nat.
Proof.
  unfold str_replace.
  induction s as [|c s IH]; cbn [contains replace_go]; [discriminate|].
  destruct (startswith (c :: s) (newlines 3)) eqn:E; cbn [orb].
  - intros _. apply startswith_inv in E as (rest & E). injection E as -> E.
    pose proof (replace_go_length s 2) as L. rewrite E in *.
    cbn [newlines repeat app length Nat.sub] in *. lia.
  - intros H. specialize (IH H). cbn [length]. lia.
Qed.

(** ** [student_support/app.py]: the final answer *)

Lemma LF_is_space (db : ucd) : Py_UNICODE_ISSPACE db LF = true.
Proof. reflexivity. Qed.

(** The markers are on one line, and start and end with no white space. *)
Lemma markers_shape (db : ucd) (m : pystr) :
  In m StudentSupport.markers ->
  one_line m /\ m <> []
  /\ exists d e, head m = Some d /\ Py_UNICODE_ISSPACE db d = false
                 /\ head (rev m) = Some e /\ Py_UNICODE_ISSPACE db e = false.
Proof.
  intros H. repeat (destruct H as [<-|H];
    [split; [|split; [discriminate|]];
     [ intros Hin; vm_compute in Hin;
       repeat (destruct Hin as [Hin|Hin]; [discriminate Hin|]); exact Hin
     | eexists _, _; conjs; reflexivity ]|]).
  destruct H.
Qed.

Section Trimming.

Variable db : ucd.

Lemma trimmed_nil : trimmed db [].
Proof. split; exact I. Qed.

Lemma lstrip_trimmed (s : pystr) : no_space db (head (lstrip db s)).
Proof.
  induction s as [|c s IH]; cbn [lstrip]; [exact I|].
  destruct (Py_UNICODE_ISSPACE db c) eqn:E; [exact IH | exact E].
Qed.

(** Stripping on the left keeps the last code point of a string that
    ends with no white space. *)
Lemma lstrip_keeps_last (s : pystr) (d : codepoint) :
  Py_UNICODE_ISSPACE db d = false ->
  exists t, lstrip db (s ++ [d]) = t ++ [d].
Proof.
  intros Hd. induction s as [|c s [t IH]]; cbn [app lstrip].
  - rewrite Hd. now exists [].
  - destruct (Py_UNICODE_ISSPACE db c); [now exists t|].
    now exists (c :: s).
Qed.

Lemma strip_trimmed (s : pystr) : trimmed db (strip db s).
Proof.
  unfold strip, rstrip, trimmed. rewrite rev_involutive.
  split; [|apply lstrip_trimmed].
  pose proof (lstrip_trimmed s) as H.
  destruct (lstrip db s) as [|c t]; [exact I|]. cbn [head no_space] in H.
  cbn [rev]. destruct (lstrip_keeps_last (rev t) c H) as [u ->].
  rewrite rev_app_distr. exact H.
Qed.

(** A trimmed string is left as it is by [strip]. *)
Lemma strip_of_trimmed (s : pystr) : trimmed db s -> strip db s = s.
Proof.
  intros [H1 H2]. unfold strip, rstrip.
  assert (forall t, no_space db (head t) -> lstrip db t = t) as L.
  { intros [|c t] H; [reflexivity|]. cbn [head no_space] in H.
    cbn [lstrip]. now rewrite H. }
  rewrite (L s H1), (L (rev s) H2). apply rev_involutive.
Qed.

(** Replacing three line feeds by two keeps the last code point of a
    text that ends with no line feed, as long as the code points still to
    be passed over lie before it. *)
Lemma replace_go_last (t : pystr) (d : codepoint) (k : nat) :
  d <> LF -> (k <= length t)%nat ->
  exists t', replace_go (newlines 3) (newlines 2) k (t ++ [d]) = t' ++ [d].
Proof.
  intros Hd. revert k; induction t as [|c t IH]; intros k Hk;
    cbn [app replace_go].
  - cbn [length] in Hk. assert (k = 0%nat) as -> by lia.
    cbn [newlines repeat startswith]. destruct (N.eqb_spec LF d) as [E|_];
      [now destruct Hd | now exists []].
  - destruct k as [|k].
    + destruct (startswith (c :: t ++ [d]) (newlines 3)) eqn:E.
      * change (length (newlines 3) - 1)%nat with 2%nat.
        destruct (IH 2%nat) as [t' ->].
        { apply startswith_inv in E as (rest & E).
          cbn [newlines repeat app] in E. injection E as _ E.
          destruct t as [|x [|y t]]; cbn [app length] in *; [| |lia].
          - destruct rest; discriminate E.
          - assert (d = LF) by congruence. now destruct Hd. }
        exists (newlines 2 ++ t'). now rewrite <- app_assoc.
      * destruct (IH 0%nat) as [t' ->]; [lia|]. now exists (c :: t').
    + cbn [length] in Hk. apply IH. lia.
Qed.

Lemma str_replace_trimmed (s : pystr) :
  trimmed db s -> s <> [] ->
  trimmed db (str_replace s (newlines 3) (newlines 2))
  /\ str_replace s (newlines 3) (newlines 2) <> [].
Proof.
  intros [H1 H2] Hs. unfold str_replace.
  destruct s as [|c s]; [now destruct Hs|]. cbn [head no_space] in H1.
  assert (replace_go (newlines 3) (newlines 2) 0 (c :: s)
          = c :: replace_go (newlines 3) (newlines 2) 0 s) as E.
  { cbn [replace_go newlines repeat startswith].
    destruct (N.eqb_spec LF c) as [<-|_]; [|reflexivity].
    now rewrite LF_is_space in H1. }
  destruct (exists_last Hs) as (t & d & Et). rewrite Et in H2 |- *.
  rewrite rev_app_distr in H2. cbn [app rev head no_space] in H2.
  destruct (replace_go_last t d 0) as [t' Et']; [|lia|].
  { intros ->. now rewrite LF_is_space in H2. }
  split.
  - split.
    + rewrite <- Et, E. exact H1.
    + rewrite Et', rev_app_distr. exact H2.
  - rewrite Et'. now destruct t'.
Qed.

End Trimming.

Section FinalAnswer.

Variable db : ucd.

(** The loop over the lines keeps only lines that hold no marker. *)
Lemma keep_line_marker_free (state : list pystr * bool) (line : pystr) :
  marker_free (fst state) ->
  marker_free (fst (StudentSupport.keep_line db state line)).
Proof.
  destruct state as [clean skip]. cbn [fst]. intros H.
  unfold StudentSupport.keep_line.
  destruct (negb (nonempty clean) && negb (nonempty (strip db line)));
    [exact H|].
  destruct (existsb _ StudentSupport.markers) eqn:E; [exact H|].
  destruct (skip && negb (nonempty (strip db line))); [exact H|].
  cbn [fst]. apply Forall_app. split; [exact H|]. constructor; [|constructor].
  intros m Hm.
  destruct (markers_shape db m Hm) as (_ & _ & d & e & H1 & H2 & H3 & H4).
  rewrite <- (contains_strip_eq db line m d e H1 H2 H3 H4).
  destruct (contains (strip db line) m) eqn:C; [|reflexivity].
  assert (existsb (fun marker => contains (strip db line) marker)
            StudentSupport.markers = true) as Habs
    by (apply existsb_exists; now exists m).
  congruence.
Qed.

Lemma clean_lines_marker_free (lines : list pystr)
  (state : list pystr * bool) :
  marker_free (fst state) ->
  marker_free (fst (fold_left (StudentSupport.keep_line db) lines state)).
Proof.
  revert state; induction lines as [|line lines IH]; intros state H;
    [exact H|].
  cbn [fold_left]. now apply IH, keep_line_marker_free.
Qed.

(** The joined and stripped lines hold no marker. *)
Lemma joined_marker_free (clean : list pystr) (m : pystr) :
  marker_free clean -> In m StudentSupport.markers ->
  contains (strip db (join [LF] clean)) m = false.
Proof.
  intros H Hm. destruct (markers_shape db m Hm) as (H1 & H2 & _).
  destruct (contains (strip db (join [LF] clean)) m) eqn:C; [|reflexivity].
  apply contains_strip, (contains_join clean m LF H1 H2) in C
    as (line & Hin & C).
  unfold marker_free in H. rewrite List.Forall_forall in H.
  now rewrite (H line Hin m Hm) in C.
Qed.

(** What holds of a text and is kept by every replacement holds after the
    loop. *)
Lemma collapse_keeps (P : pystr -> Prop) (fuel : nat) (r : pystr) :
  (forall s, P s -> contains s (newlines 3) = true ->
             P (str_replace s (newlines 3) (newlines 2))) ->
  P r -> P (StudentSupport.collapse fuel r).
Proof.
  intros Hstep. revert r; induction fuel as [|fuel IH]; intros r Hr;
    cbn [StudentSupport.collapse]; [exact Hr|].
  destruct (contains r (newlines 3)) eqn:E; [|exact Hr].
  now apply IH, Hstep.
Qed.

(** The loop ends within as many turns as the text is long. *)
Lemma collapse_done (fuel : nat) (r : pystr) :
  (length r <= fuel)%nat ->
  contains (StudentSupport.collapse fuel r) (newlines 3) = false.
Proof.
  revert r; induction fuel as [|fuel IH]; intros r Hr;
    cbn [StudentSupport.collapse].
  - destruct r; [reflexivity | simpl in Hr; lia].
  - destruct (contains r (newlines 3)) eqn:E; [|exact E].
    apply IH. pose proof (str_replace_shorter r E). lia.
Qed.

(** In a blank text nothing occurs that starts with no white space. *)
Lemma blank_contains (s m : pystr) (d : codepoint) :
  blank db s = true -> head m = Some d -> Py_UNICODE_ISSPACE db d = false ->
  contains s m = false.
Proof.
  intros Hs Hm Hd. destruct (contains s m) eqn:C; [|reflexivity].
  apply contains_inv in C as (a & b & ->).
  rewrite !blank_app in Hs. apply andb_prop in Hs as [_ Hs].
  apply andb_prop in Hs as [Hs _].
  destruct m as [|d' m]; [discriminate|]. injection Hm as ->.
  cbn [blank forallb] in Hs. apply andb_prop in Hs as [Hs _]. congruence.
Qed.

(** Where [old] does not occur, nothing is replaced. *)
Lemma str_replace_absent (s old new : pystr) :
  contains s old = false -> str_replace s old new = s.
Proof.
  unfold str_replace. induction s as [|c s IH]; cbn [contains replace_go];
    [reflexivity|].
  intros H. apply orb_false_elim in H as [-> H]. now rewrite (IH H).
Qed.

(** The parts of a blank text are blank. *)
Lemma split_go_blank (sep : pystr) (skip : nat) (cur s : pystr) :
  blank db cur = true -> blank db s = true ->
  Forall (fun part => blank db part = true) (split_go sep skip cur s).
Proof.
  revert skip cur; induction s as [|c s IH]; intros skip cur Hc Hs;
    cbn [split_go].
  - now constructor.
  - cbn [blank forallb] in Hs. apply andb_prop in Hs as [Hc' Hs].
    destruct skip as [|k]; [|now apply IH].
    destruct (startswith (c :: s) sep).
    + constructor; [exact Hc | now apply IH].
    + apply IH; [|exact Hs]. rewrite blank_app, Hc. cbn [blank forallb].
      now rewrite Hc'.
Qed.

(** Blank lines at the start are all passed over. *)
Lemma keep_line_blank (lines : list pystr) :
  Forall (fun line => blank db line = true) lines ->
  fold_left (StudentSupport.keep_line db) lines ([], false) = ([], false).
Proof.
  induction 1 as [|line lines Hl _ IH]; [reflexivity|].
  cbn [fold_left]. unfold StudentSupport.keep_line at 2.
  apply (strip_empty_iff db) in Hl. rewrite Hl. exact IH.
Qed.

(** The answer is the stripped join of lines without markers, with its
    runs of line feeds cut down, or the fixed text when nothing is
    left. *)
Lemma extract_final_answer_shape (crew_output : pystr) :
  exists clean,
    marker_free clean
    /\ StudentSupport.extract_final_answer db crew_output
       = let r := strip db (join [LF] clean) in
         let r := StudentSupport.collapse (length r) r in
         if nonempty r then r else py "No response generated".
Proof.
  unfold StudentSupport.extract_final_answer. eexists. split; [|reflexivity].
  apply clean_lines_marker_free. constructor.
Qed.

End FinalAnswer.

Section FinalAnswerProperties.

Variable db : ucd.

(** X12. Whatever the crew wrote, none of the four markers of system
    messages, "Thought:", "Action:", "### User:" and "Current Task:", is
    left anywhere in the extracted answer: a marker that comes about when
    the artifacts are taken out goes with its whole line. *)
Theorem final_answer_has_no_marker (crew_output : pystr) :
  let answer := StudentSupport.extract_final_answer db crew_output in
  contains answer (py "Thought:") = false
  /\ contains answer (py "Action:") = false
  /\ contains answer (py "### User:") = false
  /\ contains answer (py "Current Task:") = false.
Proof.
  cbn zeta.
  assert (forall m, In m StudentSupport.markers ->
            contains (StudentSupport.extract_final_answer db crew_output) m
            = false) as H.
  { intros m Hm.
    destruct (extract_final_answer_shape db crew_output) as (clean & Hc & ->).
    cbn zeta. set (r := strip db (join [LF] clean)).
    assert (contains (StudentSupport.collapse (length r) r) m = false) as Hr.
    { apply (collapse_keeps (fun s => contains s m = false)).
      - intros s Hs _. destruct (contains (str_replace _ _ _) m) eqn:C;
          [|reflexivity].
        destruct (markers_shape db m Hm) as (H1 & H2 & _).
        apply (contains_collapsed s m 0 H1 H2) in C. congruence.
      - now apply joined_marker_free. }
    destruct (nonempty _); [exact Hr|].
    repeat (destruct Hm as [<-|Hm]; [reflexivity|]). destruct Hm. }
  conjs; apply H; unfold StudentSupport.markers; cbn [In]; auto.
Qed.

(** X13. The extracted answer is never empty and never starts or ends
    with white space: stripping it again changes nothing. *)
Theorem final_answer_is_trimmed (crew_output : pystr) :
  let answer := StudentSupport.extract_final_answer db crew_output in
  answer <> [] /\ strip db answer = answer.
Proof.
  cbn zeta.
  destruct (extract_final_answer_shape db crew_output) as (clean & _ & ->).
  cbn zeta. set (r := strip db (join [LF] clean)).
  assert (trimmed db (StudentSupport.collapse (length r) r)) as Hr.
  { apply (collapse_keeps (trimmed db)); [|apply strip_trimmed].
    intros s Hs C. apply str_replace_trimmed; [exact Hs|].
    intros ->. discriminate C. }
  destruct (StudentSupport.collapse (length r) r) as [|c t] eqn:E;
    cbn [nonempty].
  - split; [discriminate | reflexivity].
  - split; [discriminate | now apply strip_of_trimmed].
Qed.

(** X14. The loop that cuts down the runs of line feeds comes to its end:
    the extracted answer has no three line feeds in a row. *)
Theorem final_answer_has_no_gap (crew_output : pystr) :
  contains (StudentSupport.extract_final_answer db crew_output) (newlines 3)
  = false.
Proof.
  destruct (extract_final_answer_shape db crew_output) as (clean & _ & ->).
  cbn zeta. set (r := strip db (join [LF] clean)).
  pose proof (collapse_done (length r) r (le_n _)) as H.
  destruct (nonempty _); [exact H | reflexivity].
Qed.

(** X15. A crew output that is empty or of white space only gives the
    fixed answer "No response generated". *)
Theorem blank_output_gives_fallback (crew_output : pystr) :
  blank db crew_output = true ->
  StudentSupport.extract_final_answer db crew_output
  = py "No response generated".
Proof.
  intros Hb. unfold StudentSupport.extract_final_answer.
  rewrite (blank_contains db crew_output (py "Final Answer:") (ord "F") Hb)
    by reflexivity.
  assert (fold_left (fun output artifact => str_replace output artifact [])
            StudentSupport.artifacts_to_remove crew_output = crew_output)
    as ->.
  { unfold StudentSupport.artifacts_to_remove. cbn [fold_left].
    repeat (rewrite (str_replace_absent crew_output);
            [|eapply (blank_contains db _ _ _ Hb); reflexivity]).
    reflexivity. }
  rewrite keep_line_blank.
  - reflexivity.
  - apply split_go_blank; [reflexivity | exact Hb].
Qed.

End FinalAnswerProperties.

(** ** Splitting on a separator that cannot overlap itself *)

(** A separator whose first code point occurs in it only once cannot
    start in the text right before one of its occurrences and run into
    it. *)
Lemma no_overlap (f : codepoint) (tl p rest : pystr) :
  ~ In f tl ->
  startswith (p ++ (f :: tl) ++ rest) (f :: tl) = true ->
  p = [] \/ (length (f :: tl) <= length p)%nat.
Proof.
  intros Hf H. destruct p as [|a p]; [now left|]. right.
  destruct (Nat.le_gt_cases (length (f :: tl)) (length (a :: p)))
    as [|Hlt]; [assumption|].
  exfalso. apply startswith_inv in H as (r & H). cbn [app] in H.
  injection H as _ H. cbn [length] in Hlt.
  apply app_eq_inv in H as [(k & -> & _)|(k & -> & H)].
  - rewrite length_app in Hlt. lia.
  - destruct k as [|f' k].
    + rewrite app_nil_r in Hlt. lia.
    + injection H as <- _. apply Hf, in_elt.
Qed.

Lemma split_go_skip (sep : pystr) (cur u s : pystr) :
  split_go sep (length u) cur (u ++ s) = split_go sep 0 cur s.
Proof. induction u as [|c u IH]; [reflexivity | exact IH]. Qed.

(** A text in which the separator does not occur is one part. *)
Lemma split_go_absent (sep : pystr) (cur s : pystr) :
  contains s sep = false -> split_go sep 0 cur s = [cur ++ s].
Proof.
  revert cur; induction s as [|c s IH]; intros cur; cbn [contains split_go].
  - now rewrite app_nil_r.
  - intros H. apply orb_false_elim in H as [-> H].
    now rewrite (IH _ H), <- app_assoc.
Qed.

(** The text after the last separator is the last part, and it is not
    the only part. *)
Lemma split_go_last (f : codepoint) (tl pre rest : pystr) (k : nat)
  (cur : pystr) :
  ~ In f tl -> contains rest (f :: tl) = false ->
  (k <= length pre)%nat ->
  exists front cur',
    split_go (f :: tl) k cur (pre ++ (f :: tl) ++ rest)
    = front ++ [cur'; rest].
Proof.
  intros Hf Hrest. revert k cur.
  induction pre as [|c pre IH]; intros k cur Hk.
  - cbn [length] in Hk. assert (k = 0%nat) as -> by lia.
    cbn [app split_go startswith].
    rewrite N.eqb_refl, startswith_app. cbn [andb].
    cbn [length Nat.sub]. rewrite Nat.sub_0_r, split_go_skip.
    rewrite (split_go_absent _ _ _ Hrest). now exists [], cur.
  - change ((c :: pre) ++ (f :: tl) ++ rest)
      with (c :: pre ++ (f :: tl) ++ rest).
    cbn [split_go]. destruct k as [|k].
    + destruct (startswith (c :: pre ++ (f :: tl) ++ rest) (f :: tl)) eqn:E.
      * apply (no_overlap f tl (c :: pre) rest Hf) in E as [E|E];
          [discriminate E|].
        destruct (IH (length (f :: tl) - 1)%nat [])
          as (front & cur' & ->); [cbn [length] in *; lia|].
        now exists (cur :: front), cur'.
      * apply IH. lia.
    + apply IH. cbn [length] in Hk. lia.
Qed.

Section LastAnswer.

Variable db : ucd.

(** X16. Only what follows the last "Final Answer:" counts: the text
    before it has no influence on the extracted answer. *)
Theorem text_before_final_answer_is_dropped (before rest : pystr) :
  contains rest (py "Final Answer:") = false ->
  StudentSupport.extract_final_answer db (before ++ py "Final Answer:" ++ rest)
  = StudentSupport.extract_final_answer db (py "Final Answer:" ++ rest).
Proof.
  intros Hrest.
  assert (forall pre,
            (if contains (pre ++ py "Final Answer:" ++ rest)
                  (py "Final Answer:")
             then
               if (1 <? length (str_split (pre ++ py "Final Answer:" ++ rest)
                                  (py "Final Answer:")))%nat
               then strip db
                      (List.last (str_split (pre ++ py "Final Answer:" ++ rest)
                                    (py "Final Answer:")) [])
               else pre ++ py "Final Answer:" ++ rest
             else pre ++ py "Final Answer:" ++ rest)
            = strip db rest) as Hout.
  { intros pre. rewrite contains_app. unfold str_split.
    destruct (split_go_last (ord "F") (py "inal Answer:") pre rest 0 [])
      as (front & cur' & E); [|exact Hrest|lia|].
    { intros Hin. vm_compute in Hin.
      repeat (destruct Hin as [Hin|Hin]; [discriminate Hin|]). exact Hin. }
    change (ord "F" :: py "inal Answer:") with (py "Final Answer:") in E.
    rewrite E.
    replace (1 <? length (front ++ [cur'; rest]))%nat with true.
    - change (front ++ [cur'; rest]) with (front ++ [cur'] ++ [rest]).
      now rewrite app_assoc, List.last_last.
    - symmetry. apply Nat.ltb_lt. rewrite length_app. simpl. lia. }
  unfold StudentSupport.extract_final_answer.
  rewrite (Hout before). now rewrite <- (Hout []).
Qed.

End LastAnswer.

(** ** The further theorems at work *)

Lemma ssn_reported_iff_witness :
  cache_ok []
  /\ exists vs,
      fst (policy_check sample_ucd (py "SSN 123-45-6789.") []) = Ok vs
      /\ In (py "PII detected: ssn") vs.
Proof.
  split; [exact cache_ok_nil|].
  destruct (ssn_reported_iff sample_ucd (py "SSN 123-45-6789.") []
              cache_ok_nil) as (vs & H & Hiff).
  exists vs. split; [exact H|]. apply Hiff.
  exists (py "SSN "), (py "123"), (py "45"), (py "6789"), (py ".").
  conjs; try reflexivity; (split; [reflexivity | repeat constructor]).
Defined.

Lemma email_reported_iff_witness :
  cache_ok []
  /\ exists vs,
      fst (policy_check sample_ucd (py "Mail jane.doe@example.com now") [])
      = Ok vs
      /\ In (py "PII detected: email") vs.
Proof.
  split; [exact cache_ok_nil|].
  destruct (email_reported_iff sample_ucd
              (py "Mail jane.doe@example.com now") [] cache_ok_nil)
    as (vs & H & Hiff).
  exists vs. split; [exact H|]. apply Hiff.
  exists (py "Mail "), (py "jane.doe"), (py "example"), (py "com"),
         (py " now").
  assert (forall (ok : codepoint -> bool) cs,
            forallb ok cs = true -> Forall (fun c => ok c = true) cs) as Hall.
  { intros ok cs Hcs. apply List.Forall_forall. now apply forallb_forall. }
  split; [reflexivity|]. split; [discriminate|]. split; [now apply Hall|].
  split; [discriminate|]. split; [now apply Hall|].
  split; [simpl; repeat constructor|].
  split; [now apply Hall|]. split; reflexivity.
Defined.

Lemma phone_reported_iff_witness :
  cache_ok []
  /\ exists vs,
      fst (policy_check sample_ucd (py "Call +49 (555) 123-4567 now") [])
      = Ok vs
      /\ In (py "PII detected: phone") vs.
Proof.
  split; [exact cache_ok_nil|].
  destruct (phone_reported_iff sample_ucd
              (py "Call +49 (555) 123-4567 now") [] cache_ok_nil)
    as (vs & H & Hiff).
  exists vs. split; [exact H|]. apply Hiff.
  exists (py "Call +"), (py "49 "), (py "("), (py "555"), (py ")"),
         (py " "), (py "123"), (py "-"), (py "4567"), (py " now").
  assert (forall c : codepoint, optional (N.eqb c) [c]) as Hone.
  { intros c. right. exists c. split; [reflexivity | apply N.eqb_refl]. }
  assert (forall c, is_separator sample_ucd c = true ->
                    optional (is_separator sample_ucd) [c]) as Hsep.
  { intros c Hc. right. exists c. split; [reflexivity | exact Hc]. }
  assert (forall n ds, length ds = n ->
            forallb (Py_UNICODE_ISDECIMAL sample_ucd) ds = true ->
            decimal_digits sample_ucd n ds) as Hdig.
  { intros n ds Hn Hds. split; [exact Hn|].
    apply List.Forall_forall. now apply forallb_forall. }
  split; [reflexivity|]. split.
  { right. exists [], (py "49"), (py " ").
    split; [reflexivity|]. split; [now left|].
    split; [split; simpl; repeat constructor|].
    split; [repeat constructor | now apply Hsep]. }
  split; [apply Hone|]. split; [now apply Hdig|]. split; [apply Hone|].
  split; [now apply Hsep|]. split; [now apply Hdig|].
  split; [now apply Hsep|]. split; [now apply Hdig|].
  split; reflexivity.
Defined.

Lemma pii_needs_its_characters_witness :
  cache_ok []
  /\ exists vs,
      fst (policy_check sample_ucd (py "No numbers here, no mail.") [])
      = Ok vs
      /\ ~ In (py "PII detected: email") vs
      /\ ~ In (py "PII detected: phone") vs
      /\ ~ In (py "PII detected: ssn") vs.
Proof.
  split; [exact cache_ok_nil|].
  destruct (pii_needs_its_characters sample_ucd
              (py "No numbers here, no mail.") [] cache_ok_nil)
    as (vs & H & He & Hd).
  exists vs. split; [exact H|]. split.
  - apply He. intros Hin. vm_compute in Hin.
    repeat (destruct Hin as [Hin|Hin]; [discriminate Hin|]). exact Hin.
  - apply Hd. repeat constructor.
Defined.

Lemma any_case_is_detected_witness :
  cache_ok [] /\ forallb is_ascii (py "StuPid") = true
  /\ exists vs front words,
      fst (policy_check sample_ucd (py "You are " ++ py "StuPid" ++ py "!")
             []) = Ok vs
      /\ vs = front ++
              [py "Unprofessional language: " ++ join (py ", ") words]
      /\ In (py "stupid") words.
Proof.
  split; [exact cache_ok_nil|]. split; [reflexivity|].
  destruct (any_case_is_detected sample_ucd (py "You are ") (py "StuPid")
              (py "!") [] cache_ok_nil eq_refl) as (vs & H & _ & Hw).
  destruct Hw as (front & words & E & Hin).
  { vm_compute. tauto. }
  exists vs, front, words. split; [exact H|]. split; [exact E | exact Hin].
Defined.

Lemma valid_iff_nothing_found_witness :
  cache_ok []
  /\ exists resp,
      fst (validate_text sample_ucd {| text := py "Well done!" |} [])
      = Ok resp.
Proof.
  split; [exact cache_ok_nil|].
  destruct (valid_iff_nothing_found sample_ucd (py "Well done!") []
              cache_ok_nil) as (resp & H & _).
  exists resp. exact H.
Defined.

Lemma routes_agree_witness :
  cache_ok []
  /\ ({[ py "text" := JStr (py "You idiot") ]} : gmap pystr json)
     !! py "text" = Some (JStr (py "You idiot"))
  /\ exists resp,
      fst (validate_text sample_ucd {| text := py "You idiot" |} [])
      = Ok resp
      /\ snd (validate_text sample_ucd {| text := py "You idiot" |} [])
         = snd (validate_text_strict sample_ucd
                  {[ py "text" := JStr (py "You idiot") ]} []).
Proof.
  assert (({[ py "text" := JStr (py "You idiot") ]} : gmap pystr json)
          !! py "text" = Some (JStr (py "You idiot"))) as Hp
    by (vm_compute; reflexivity).
  split; [exact cache_ok_nil|]. split; [exact Hp|].
  destruct (routes_agree sample_ucd _ (py "You idiot") [] cache_ok_nil Hp)
    as (resp & H1 & H2 & _).
  exists resp. split; [exact H1 | exact H2].
Defined.

Lemma letter_r_gives_R_witness :
  (In (ord "r") (py "My career") \/ In (ord "R") (py "My career"))
  /\ In (py "R")
       (StudentSupport.extract_learning_paths sample_ucd (py "My career")).
Proof.
  assert (In (ord "r") (py "My career") \/ In (ord "R") (py "My career"))
    as H by (left; vm_compute; tauto).
  split; [exact H|]. exact (letter_r_gives_R sample_ucd (py "My career") H).
Defined.

Lemma blank_prompt_rejected_witness :
  no_text sample_ucd
    (StudentSupport.prompt <$> Some {| StudentSupport.prompt := [] |}) = true
  /\ no_text sample_ucd (Some (py "  ")) = true
  /\ no_text sample_ucd None = true
  /\ StudentSupport.get_student_support sample_ucd (fun _ => Answer (py "ok"))
       (Some {| StudentSupport.prompt := [] |}) (Some (py "  ")) None
     = Raise StudentSupport.prompt_cannot_be_empty.
Proof.
  split; [reflexivity|]. split; [reflexivity|]. split; [reflexivity|].
  apply blank_prompt_rejected. left. repeat split.
Defined.

Lemma blank_output_gives_fallback_witness :
  blank sample_ucd (py "  " ++ [LF; 160] ++ py " ") = true
  /\ StudentSupport.extract_final_answer sample_ucd
       (py "  " ++ [LF; 160] ++ py " ")
     = py "No response generated".
Proof.
  split; [reflexivity|]. apply blank_output_gives_fallback. reflexivity.
Defined.

Lemma text_before_final_answer_is_dropped_witness :
  contains (py " Learn SQL.") (py "Final Answer:") = false
  /\ StudentSupport.extract_final_answer sample_ucd
       (py "Thought: I now know. " ++ py "Final Answer:" ++ py " Learn SQL.")
     = StudentSupport.extract_final_answer sample_ucd
         (py "Final Answer:" ++ py " Learn SQL.").
Proof.
  split; [reflexivity|].
  apply text_before_final_answer_is_dropped. reflexivity.
Defined.


(** ** [student_support/app.py]: the formatters of the crew prompt *)

Lemma append_lines_None {A} (line : A -> option pystr) (items : list A)
  (formatted : list pystr) :
  StudentSupport.append_lines line items formatted = None
  <-> exists item, In item items /\ line item = None.
Proof.
  revert formatted.
  induction items as [|item items IH]; intros formatted; cbn.
  - split; [discriminate | intros (? & [] & _)].
  - destruct (line item) as [l|] eqn:E.
    + rewrite IH. split.
      * intros (x & Hin & Hx). exists x. auto.
      * intros (x & [->|Hin] & Hx); [congruence | exists x; auto].
    + split; [|reflexivity]. intros _. exists item. auto.
Qed.

Lemma in_enumerate {A} (x : A) (l : list A) (k : nat) :
  In x l <-> exists i, In (i, x) (StudentSupport.enumerate k l).
Proof.
  revert k.
  induction l as [|y l IH]; intros k; cbn.
  - split; [intros [] | intros (? & [])].
  - split.
    + intros [->|Hin].
      * exists k. now left.
      * apply (IH (S k)) in Hin as (i & Hi). exists i. now right.
    + intros (i & [E|Hi]).
      * left. congruence.
      * right. apply (IH (S k)). now exists i.
Qed.

Lemma upto_None (n : nat) (v : json) :
  StudentSupport.upto n v = None <-> no_slice v.
Proof.
  unfold no_slice.
  destruct v; cbn; split; try discriminate; try (intros _; split; congruence);
    intros [H1 H2]; exfalso; [eapply H1 | eapply H2]; reflexivity.
Qed.

Lemma truth_default (d : gmap pystr json) (key : pystr) :
  StudentSupport.truth (default JNone (d !! key)) = false
  <-> falsy_at d key.
Proof.
  unfold falsy_at.
  destruct (d !! key) as [v|]; cbn.
  - split; [intros H ? [= <-]; exact H | intros H; now apply H].
  - split; [discriminate | reflexivity].
Qed.

Lemma job_text_None (job : json) :
  StudentSupport.job_text job = None
  <-> not_an_object job
      \/ exists d v,
           job = JDict d
           /\ falsy_at d (py "study_program") /\ falsy_at d (py "title")
           /\ d !! py "content" = Some v /\ no_slice v.
Proof.
  assert (Hobj : forall d, ~ not_an_object (JDict d))
    by (intros d H; now apply (H d)).
  destruct job as [| | | | | |d];
    try (cbn; split; [intros _; left; intros ?; discriminate | reflexivity]).
  cbn [StudentSupport.job_text].
  destruct (StudentSupport.truth (default JNone (d !! py "study_program")))
    eqn:E1.
  { split; [discriminate|].
    intros [H|(d' & v & [= <-] & H1 & _)]; [now apply Hobj in H|].
    apply truth_default in H1. congruence. }
  destruct (StudentSupport.truth (default JNone (d !! py "title"))) eqn:E2.
  { split; [discriminate|].
    intros [H|(d' & v & [= <-] & _ & H2 & _)]; [now apply Hobj in H|].
    apply truth_default in H2. congruence. }
  apply truth_default in E1, E2.
  rewrite upto_None. split.
  - intros H. right. destruct (d !! py "content") as [v|] eqn:E.
    + exists d, v. auto.
    + destruct H as [H _]. now specialize (H (py "No content")).
  - intros [H|(d' & v & [= <-] & _ & _ & -> & H)]; [now apply Hobj in H|].
    exact H.
Qed.

Lemma guideline_line_None (str_of : json -> pystr) (guideline : json) :
  StudentSupport.guideline_line str_of guideline = None
  <-> not_an_object guideline
      \/ exists d v,
           guideline = JDict d /\ d !! py "content" = Some v /\ no_slice v.
Proof.
  assert (Hobj : forall d, ~ not_an_object (JDict d))
    by (intros d H; now apply (H d)).
  destruct guideline as [| | | | | |d];
    try (cbn; split; [intros _; left; intros ?; discriminate | reflexivity]).
  cbn [StudentSupport.guideline_line].
  destruct (StudentSupport.upto 150 (default (JStr []) (d !! py "content")))
    as [content|] eqn:E; cbn [StudentSupport.and_then].
  - split; [discriminate|].
    intros [H|(d' & v & [= <-] & Hv & H)]; [now apply Hobj in H|].
    rewrite Hv in E. apply (upto_None 150) in H. cbn in E. congruence.
  - split; [|reflexivity]. intros _. right.
    apply upto_None in E.
    destruct (d !! py "content") as [v|] eqn:Ev.
    + exists d, v. auto.
    + destruct E as [E _]. now specialize (E []).
Qed.

Lemma skill_line_None (str_of : json -> pystr) (i : nat) (skill : json) :
  StudentSupport.skill_line str_of i skill = None <-> not_an_object skill.
Proof.
  destruct skill as [| | | | | |d]; cbn;
    try (split; [intros _ ?; discriminate | reflexivity]).
  split; [discriminate | intros H; now specialize (H d)].
Qed.

(** X17. On a list, the three formatters raise exactly when one of the
    items they read is off: an item that is no object, or, for jobs and
    guidelines, an object whose [content] is there but is neither a
    string nor a list, which for jobs only counts when [study_program]
    and [title] are both missing or false. Jobs and skills beyond the
    fifth and guidelines beyond the third are not read. *)
Theorem formatters_raise_iff (str_of : json -> pystr) (items : list json) :
  (StudentSupport.format_jobs_for_prompt str_of (JList items) = None
   <-> exists job,
         In job (take 5 items)
         /\ (not_an_object job
             \/ exists d v,
                  job = JDict d
                  /\ falsy_at d (py "study_program")
                  /\ falsy_at d (py "title")
                  /\ d !! py "content" = Some v /\ no_slice v))
  /\ (StudentSupport.format_skills_for_prompt str_of (JList items) = None
      <-> exists skill, In skill (take 5 items) /\ not_an_object skill)
  /\ (StudentSupport.format_ethics_for_prompt str_of (JList items) = None
      <-> exists guideline,
            In guideline (take 3 items)
            /\ (not_an_object guideline
                \/ exists d v,
                     guideline = JDict d
                     /\ d !! py "content" = Some v /\ no_slice v)).
Proof.
  assert (Hlines : forall A (m : option (list pystr)) (k : _ -> option A),
             (forall l, k l <> None) ->
             StudentSupport.and_then m k = None <-> m = None).
  { intros A [l|] k Hk; cbn; [|tauto].
    split; [intros H; now apply Hk in H | discriminate]. }
  unfold StudentSupport.format_jobs_for_prompt,
    StudentSupport.format_skills_for_prompt,
    StudentSupport.format_ethics_for_prompt.
  destruct items as [|item items].
  { cbn. repeat split; try discriminate; intros (? & [] & _). }
  cbn [StudentSupport.truth nonempty negb StudentSupport.upto
       StudentSupport.and_then StudentSupport.elements].
  repeat split.
  - rewrite Hlines by discriminate. rewrite append_lines_None.
    intros ([i job] & Hin & Hnone). exists job. split.
    + apply (in_enumerate job _ 1). now exists i.
    + apply job_text_None.
      destruct (StudentSupport.job_text job); [discriminate | reflexivity].
  - intros (job & Hin & Hbad).
    rewrite Hlines by discriminate. rewrite append_lines_None.
    apply (in_enumerate job _ 1) in Hin as (i & Hi).
    exists (i, job). split; [exact Hi|].
    apply job_text_None in Hbad. now rewrite Hbad.
  - rewrite Hlines by discriminate. rewrite append_lines_None.
    intros ([i skill] & Hin & Hnone). exists skill. split.
    + apply (in_enumerate skill _ 1). now exists i.
    + now apply (skill_line_None str_of i).
  - intros (skill & Hin & Hbad).
    rewrite Hlines by discriminate. rewrite append_lines_None.
    apply (in_enumerate skill _ 1) in Hin as (i & Hi).
    exists (i, skill). split; [exact Hi|].
    now apply skill_line_None.
  - rewrite Hlines by discriminate. rewrite append_lines_None.
    intros (g & Hin & Hnone). exists g. split; [exact Hin|].
    now apply (guideline_line_None str_of).
  - intros (g & Hin & Hbad).
    rewrite Hlines by discriminate. rewrite append_lines_None.
    exists g. split; [exact Hin|]. now apply guideline_line_None.
Qed.
